(** * Verification of the AI Judge evaluation-run orchestrator

    Shallow embedding of the [POST /api/run-judges] handler of
    [backend/index.js]: the plan expansion over submissions, questions
    and judge assignments, the per-unit Gemini call, fence stripping,
    [JSON.parse], payload validation and the Supabase insert.

    JavaScript strings are lists of UTF-16 code units ([list Z]). *)

From Stdlib Require Import List ZArith String Ascii Bool Lia.
Import ListNotations.

Open Scope Z_scope.
Set Warnings "-register-all".

(** ** JavaScript strings *)

Definition jsstr := list Z.

(** String literals of the source, written as ASCII Rocq strings. *)
Definition js (s : string) : jsstr :=
  map (fun a => Z.of_nat (nat_of_ascii a)) (list_ascii_of_string s).

Fixpoint jsstr_eqb (a b : jsstr) : bool :=
  match a, b with
  | [], [] => true
  | x :: a', y :: b' => (x =? y) && jsstr_eqb a' b'
  | _, _ => false
  end.

(** WhiteSpace and LineTerminator code points, as used by
    [String.prototype.trim]. *)
Definition is_js_ws (c : Z) : bool :=
  (c =? 9) || (c =? 10) || (c =? 11) || (c =? 12) || (c =? 13) || (c =? 32)
  || (c =? 160) || (c =? 5760) || ((8192 <=? c) && (c <=? 8202))
  || (c =? 8232) || (c =? 8233) || (c =? 8239) || (c =? 8287)
  || (c =? 12288) || (c =? 65279).

Fixpoint trim_start (s : jsstr) : jsstr :=
  match s with
  | [] => []
  | c :: r => if is_js_ws c then trim_start r else s
  end.

Definition trim_end (s : jsstr) : jsstr := rev (trim_start (rev s)).

(** [String.prototype.trim]. *)
Definition trim (s : jsstr) : jsstr := trim_end (trim_start s).

(** [toLowerCase], on the ASCII letters.  The lowered message is only
    searched for the ASCII keywords below; no other code unit lowers to a
    sequence that could complete one of them, so the ASCII mapping decides
    the same [includes] tests. *)
Definition to_lower (s : jsstr) : jsstr :=
  map (fun c => if (65 <=? c) && (c <=? 90) then c + 32 else c) s.

Fixpoint is_prefix (p s : jsstr) : bool :=
  match p, s with
  | [], _ => true
  | x :: p', y :: s' => (x =? y) && is_prefix p' s'
  | _ :: _, [] => false
  end.

(** [String.prototype.includes]. *)
Fixpoint includes (s p : jsstr) : bool :=
  is_prefix p s || match s with [] => false | _ :: r => includes r p end.

(** ** Fence stripping: [raw.replace(/```json/gi, "").replace(/```/g, "")] *)

Definition is_tick (c : Z) : bool := c =? 96.

(** Case-insensitive match of a lower-case ASCII letter [l] (the [i] flag
    without [u] folds ASCII letters only). *)
Definition ci (l c : Z) : bool := (c =? l) || (c =? l - 32).

(** [/```json/gi] replaced by the empty string, scanning left to right. *)
Fixpoint strip_json_fence (s : jsstr) : jsstr :=
  match s with
  | [] => []
  | a :: s1 =>
      match s1 with
      | b :: c :: d :: e :: f :: g :: r =>
          if is_tick a && is_tick b && is_tick c && ci 106 d && ci 115 e
             && ci 111 f && ci 110 g
          then strip_json_fence r
          else a :: strip_json_fence s1
      | _ => a :: strip_json_fence s1
      end
  end.

(** [/```/g] replaced by the empty string, scanning left to right. *)
Fixpoint strip_ticks (s : jsstr) : jsstr :=
  match s with
  | [] => []
  | a :: s1 =>
      match s1 with
      | b :: c :: r =>
          if is_tick a && is_tick b && is_tick c
          then strip_ticks r
          else a :: strip_ticks s1
      | _ => a :: strip_ticks s1
      end
  end.

(** [const cleaned = raw.replace(/```json/gi, "").replace(/```/g, "").trim()] *)
Definition clean_response (raw : jsstr) : jsstr :=
  trim (strip_ticks (strip_json_fence raw)).

(** Three backticks, the [/```/] marker. *)
Definition ticks3 : jsstr := [96; 96; 96].

(** [s] contains no three consecutive backticks. *)
Fixpoint no_triple (s : jsstr) : bool :=
  match s with
  | [] => true
  | a :: s1 =>
      match s1 with
      | b :: c :: _ => negb (is_tick a && is_tick b && is_tick c) && no_triple s1
      | _ => no_triple s1
      end
  end.

(** ** JSON values and [JSON.parse] *)

(** A number is kept exactly as [(-1)^neg * mant * 10^exp10]. *)
Inductive jvalue : Type :=
| JNull
| JBool (b : bool)
| JNum (neg : bool) (mant : Z) (exp10 : Z)
| JStr (s : jsstr)
| JArr (l : list jvalue)
| JObj (l : list (jsstr * jvalue)).

(** JSON whitespace: space, tab, line feed, carriage return. *)
Definition is_json_ws (c : Z) : bool :=
  (c =? 32) || (c =? 9) || (c =? 10) || (c =? 13).

Fixpoint skip_ws (s : list Z) : list Z :=
  match s with
  | [] => []
  | c :: r => if is_json_ws c then skip_ws r else s
  end.

Definition is_digit (c : Z) : bool := (48 <=? c) && (c <=? 57).

Definition hex_val (c : Z) : option Z :=
  if is_digit c then Some (c - 48)
  else if (97 <=? c) && (c <=? 102) then Some (c - 87)
  else if (65 <=? c) && (c <=? 70) then Some (c - 55)
  else None.

(** String body after the opening quote; returns the code units and the rest. *)
Fixpoint parse_string (s : list Z) (acc : list Z) : option (jsstr * list Z) :=
  match s with
  | [] => None
  | c :: r =>
      if c =? 34 then Some (rev acc, r)
      else if c =? 92 then
        match r with
        | [] => None
        | e :: r' =>
            if e =? 34 then parse_string r' (34 :: acc)
            else if e =? 92 then parse_string r' (92 :: acc)
            else if e =? 47 then parse_string r' (47 :: acc)
            else if e =? 98 then parse_string r' (8 :: acc)
            else if e =? 102 then parse_string r' (12 :: acc)
            else if e =? 110 then parse_string r' (10 :: acc)
            else if e =? 114 then parse_string r' (13 :: acc)
            else if e =? 116 then parse_string r' (9 :: acc)
            else if e =? 117 then
              match r' with
              | h1 :: h2 :: h3 :: h4 :: r'' =>
                  match hex_val h1, hex_val h2, hex_val h3, hex_val h4 with
                  | Some a, Some b, Some c', Some d =>
                      parse_string r'' ((((a * 16 + b) * 16 + c') * 16 + d) :: acc)
                  | _, _, _, _ => None
                  end
              | _ => None
              end
            else None
        end
      else if c <? 32 then None
      else parse_string r (c :: acc)
  end.

Fixpoint span_digits (s : list Z) : list Z * list Z :=
  match s with
  | c :: r => if is_digit c then let (d, t) := span_digits r in (c :: d, t) else ([], s)
  | [] => ([], [])
  end.

Definition digits_value (d : list Z) : Z :=
  fold_left (fun acc c => acc * 10 + (c - 48)) d 0.

(** [-? (0 | [1-9][0-9]* ) (. [0-9]+)? ([eE] [+-]? [0-9]+)?] *)
Definition parse_number (s : list Z) : option (jvalue * list Z) :=
  let '(neg, s1) := match s with 45 :: r => (true, r) | _ => (false, s) end in
  let int_part :=
    match s1 with
    | c :: r =>
        if c =? 48 then Some ([c], r)
        else if is_digit c then let (d, t) := span_digits r in Some (c :: d, t)
        else None
    | [] => None
    end in
  match int_part with
  | None => None
  | Some (ip, s2) =>
      let frac :=
        match s2 with
        | 46 :: r => let (d, t) := span_digits r in
                     match d with [] => None | _ => Some (d, t) end
        | _ => Some ([], s2)
        end in
      match frac with
      | None => None
      | Some (fp, s3) =>
          let ex :=
            match s3 with
            | e :: r =>
                if (e =? 101) || (e =? 69) then
                  let '(sg, r1) :=
                    match r with
                    | 43 :: r1 => (1, r1) | 45 :: r1 => (-1, r1) | _ => (1, r)
                    end in
                  let (d, t) := span_digits r1 in
                  match d with [] => None | _ => Some (sg * digits_value d, t) end
                else Some (0, s3)
            | [] => Some (0, s3)
            end in
          match ex with
          | None => None
          | Some (x, s4) =>
              Some (JNum neg (digits_value (ip ++ fp)) (x - Z.of_nat (List.length fp)), s4)
          end
      end
  end.

Definition lit_true : list Z := js "true".
Definition lit_false : list Z := js "false".
Definition lit_null : list Z := js "null".

(** The value grammar; [fuel] bounds the nesting of calls, and
    [2 * length + 2] is never exhausted on an input of that length. *)
Fixpoint parse_value (fuel : nat) (s : list Z) : option (jvalue * list Z) :=
  match fuel with
  | O => None
  | S f =>
      match skip_ws s with
      | [] => None
      | c :: r =>
          if c =? 123 then
            match skip_ws r with
            | 125 :: r' => Some (JObj [], r')
            | _ => parse_members f r []
            end
          else if c =? 91 then
            match skip_ws r with
            | 93 :: r' => Some (JArr [], r')
            | _ => parse_elements f r []
            end
          else if c =? 34 then
            match parse_string r [] with
            | Some (str, r') => Some (JStr str, r')
            | None => None
            end
          else if is_prefix lit_true (c :: r) then Some (JBool true, skipn 4 (c :: r))
          else if is_prefix lit_false (c :: r) then Some (JBool false, skipn 5 (c :: r))
          else if is_prefix lit_null (c :: r) then Some (JNull, skipn 4 (c :: r))
          else parse_number (c :: r)
      end
  end
with parse_members (fuel : nat) (s : list Z) (acc : list (jsstr * jvalue))
  : option (jvalue * list Z) :=
  match fuel with
  | O => None
  | S f =>
      match skip_ws s with
      | 34 :: r =>
          match parse_string r [] with
          | Some (k, r1) =>
              match skip_ws r1 with
              | 58 :: r2 =>
                  match parse_value f r2 with
                  | Some (v, r3) =>
                      match skip_ws r3 with
                      | 44 :: r4 => parse_members f r4 (acc ++ [(k, v)])
                      | 125 :: r4 => Some (JObj (acc ++ [(k, v)]), r4)
                      | _ => None
                      end
                  | None => None
                  end
              | _ => None
              end
          | None => None
          end
      | _ => None
      end
  end
with parse_elements (fuel : nat) (s : list Z) (acc : list jvalue)
  : option (jvalue * list Z) :=
  match fuel with
  | O => None
  | S f =>
      match parse_value f s with
      | Some (v, r) =>
          match skip_ws r with
          | 44 :: r' => parse_elements f r' (acc ++ [v])
          | 93 :: r' => Some (JArr (acc ++ [v]), r')
          | _ => None
          end
      | None => None
      end
  end.

(** [JSON.parse]: one value, surrounded by JSON whitespace only;
    [None] is the thrown [SyntaxError]. *)
Definition json_parse (s : jsstr) : option jvalue :=
  match parse_value (2 * List.length s + 2)%nat s with
  | Some (v, r) => match skip_ws r with [] => Some v | _ => None end
  | None => None
  end.

(** Property read [v.k]: the own property of an object (the last
    occurrence of a duplicated key wins), [undefined] otherwise. *)
Definition jget (v : jvalue) (k : jsstr) : option jvalue :=
  match v with
  | JObj l =>
      fold_left (fun r kv => if jsstr_eqb (fst kv) k then Some (snd kv) else r) l None
  | _ => None
  end.

(** Truthiness of a JSON number after rounding to a double: zero (or a
    value that underflows to zero, at most 2^-1075) is falsy. *)
Definition num_truthy (mant exp10 : Z) : bool :=
  if mant =? 0 then false
  else if 0 <=? exp10 then true
  else if Z.log2 mant + 325 <=? - exp10 then false
  else 10 ^ (- exp10) <? mant * 2 ^ 1075.

(** JavaScript truthiness of a JSON value. *)
Definition truthy_val (v : jvalue) : bool :=
  match v with
  | JNull => false
  | JBool b => b
  | JNum _ m e => num_truthy m e
  | JStr s => match s with [] => false | _ => true end
  | JArr _ => true
  | JObj _ => true
  end.

(** Truthiness of a property read; [None] is [undefined]. *)
Definition truthy (v : option jvalue) : bool :=
  match v with None => false | Some x => truthy_val x end.

(** ** Record Store rows *)

Record Submission := {
  sub_id : jsstr;
  sub_queue_id : jsstr;
  labeling_task_id : option jsstr;
  sub_created_at : jsstr
}.

Record Question := {
  q_id : jsstr;
  q_queue_id : jsstr;
  question_text : option jsstr;
  question_type : option jsstr
}.

Record Answer := {
  ans_submission_id : jsstr;
  ans_question_id : jsstr;
  choice : option jsstr;
  ans_reasoning : option jsstr
}.

(** [active = None] is a null or absent column. *)
Record Judge := {
  judge_id : jsstr;
  judge_name : jsstr;
  system_prompt : option jsstr;
  model_name : option jsstr;
  active : option bool
}.

Record QuestionJudge := {
  qj_id : jsstr;
  qj_queue_id : jsstr;
  qj_question_id : jsstr;
  qj_judge_id : jsstr
}.

(** A row of the [question_judges] select with its embedded judge: the
    joined judge is [null] when no judge row matches. *)
Record Assignment := {
  as_id : jsstr;
  as_question_id : jsstr;
  as_judge_id : jsstr;
  judges : option Judge
}.

(** The object passed to [supabase.from("evaluations").insert]; verdict
    and reasoning are the JSON values read from the LLM payload. *)
Record Evaluation := {
  ev_submission_id : jsstr;
  ev_question_id : jsstr;
  ev_judge_id : jsstr;
  ev_verdict : jvalue;
  ev_reasoning : jvalue;
  ev_created_at : jsstr
}.

Record DB := {
  submissions : list Submission;
  questions : list Question;
  answers : list Answer;
  judges_table : list Judge;
  question_judges : list QuestionJudge;
  evaluations : list Evaluation
}.

Inductive Table := TSubmissions | TQuestions | TAnswers | TQuestionJudges.

(** ** Thrown values and Gateway results *)

(** A thrown error object: its [status], its [message] ("" when absent)
    and [String(err)]. *)
Record Thrown := {
  err_status : option Z;
  err_message : jsstr;
  err_string : jsstr
}.

(** [String(err?.message || err || "").toLowerCase()] for an error object. *)
Definition err_msg (e : Thrown) : jsstr :=
  to_lower (match err_message e with [] => err_string e | m => m end).

(** A [generateContent] call: model name and prompt. *)
Record GenCall := { gc_model : jsstr; gc_prompt : jsstr }.

(** Outcome of [await ai.models.generateContent(...)]: a rejection, or a
    response whose [candidates?.[0]?.content?.parts?.[0]?.text] is given
    ([None] when some link of the chain is missing). *)
Inductive GenResult :=
| GenThrow (e : Thrown)
| GenOk (text : option jsstr).

(** Outcome of [await supabase.from("evaluations").insert(row)]. *)
Inductive InsResult :=
| InsOk
| InsErr (e : Thrown)
| InsThrow (e : Thrown).

(** ** Messages of the source *)

Definition DEFAULT_GEMINI_MODEL : jsstr := js "gemini-2.5-flash".

Definition W_EMPTY : jsstr :=
  js "Received an empty response from the LLM for at least one evaluation.".
Definition W_PARSE : jsstr :=
  js "At least one LLM response could not be parsed as JSON.".
Definition W_INVALID : jsstr :=
  js "At least one LLM response did not include a valid verdict or reasoning.".
Definition W_SAVE : jsstr :=
  js "At least one evaluation could not be saved to the database.".
Definition W_QUOTA : jsstr :=
  js "LLM quota or rate limit exceeded. Some evaluations were skipped.".
Definition W_GENERIC : jsstr :=
  js "One or more LLM calls failed. Check backend logs for details.".

Definition NOTE_NOTHING : jsstr :=
  js "Nothing to evaluate: ensure submissions, questions, and judge assignments exist for this queue.".
Definition ERR_MISSING_QUEUE : jsstr := js "Missing queueId".
Definition ERR_INTERNAL : jsstr := js "Internal error running judges".

(** The [TypeError] of [const { verdict, reasoning } = verdictJson] when
    [JSON.parse] returned [null]. *)
Definition destructure_null_error : Thrown :=
  {| err_status := None;
     err_message := js "Cannot destructure property 'verdict' of 'verdictJson' as it is null.";
     err_string := js "TypeError: Cannot destructure property 'verdict' of 'verdictJson' as it is null." |}.

(** [classifyGeminiError] *)
Definition classifyGeminiError (e : Thrown) : jsstr :=
  let msg := err_msg e in
  if includes msg (js "quota") || includes msg (js "rate limit") then
    js "LLM quota or rate limit exceeded."
  else if includes msg (js "permission") || includes msg (js "unauthorized") then
    js "LLM credentials or permissions issue."
  else if includes msg (js "deadline") || includes msg (js "timeout") then
    js "LLM request timed out."
  else js "LLM call failed.".

(** [buildPrompt]: [${x}] renders [null] as "null"; [x ?? "N/A"]. *)
Definition show_nullable (x : option jsstr) : jsstr :=
  match x with Some s => s | None => js "null" end.
Definition or_na (x : option jsstr) : jsstr :=
  match x with Some s => s | None => js "N/A" end.

Definition buildPrompt (systemPrompt questionText : option jsstr)
    (choice reasoning : option jsstr) : jsstr :=
  js "
SYSTEM:
" ++ show_nullable systemPrompt ++ js "

USER:
Question: " ++ show_nullable questionText ++ js "
Choice: " ++ or_na choice ++ js "
Reasoning: " ++ or_na reasoning ++ js "

Return JSON exactly in this format:
{
  " ++ [34] ++ js "verdict" ++ [34] ++ js ": " ++ [34] ++ js "pass" ++ [34]
  ++ js " | " ++ [34] ++ js "fail" ++ [34] ++ js " | " ++ [34]
  ++ js "inconclusive" ++ [34] ++ js ",
  " ++ [34] ++ js "reasoning" ++ [34] ++ js ": " ++ [34]
  ++ js "short explanation" ++ [34] ++ js "
}
".

(** [judge.model_name || DEFAULT_GEMINI_MODEL] *)
Definition model_for (j : Judge) : jsstr :=
  match model_name j with
  | Some ((_ :: _) as m) => m
  | _ => DEFAULT_GEMINI_MODEL
  end.

(** [runWarnings.add(w)] on a JavaScript [Set] (insertion order kept). *)
Definition set_add (w : jsstr) (ws : list jsstr) : list jsstr :=
  if existsb (jsstr_eqb w) ws then ws else ws ++ [w].

(** ** The external world of one request *)

(** The collaborators the handler awaits: the Gemini client (its answer
    may depend on every earlier call of the run), the evaluations insert
    (its answer may depend on the table's current rows), the clock read by
    [new Date().toISOString()] (indexed by the number of earlier reads),
    and the error, if any, of each planning-phase select. *)
Record World := {
  generate : list GenCall -> GenCall -> GenResult;
  insert_result : list Evaluation -> Evaluation -> InsResult;
  now_iso : nat -> jsstr;
  read_error : Table -> option Thrown
}.

(** The handler's local state during the loop, with the store and the
    log of Gemini calls. *)
Record RunState := {
  planned : nat;
  completed : nat;
  failed : nat;
  run_warnings : list jsstr;
  store : DB;
  gen_calls : list GenCall;
  clock : nat
}.

Definition with_db (d : DB) (ev : list Evaluation) : DB :=
  {| submissions := submissions d; questions := questions d;
     answers := answers d; judges_table := judges_table d;
     question_judges := question_judges d; evaluations := ev |}.

(** [planned++] *)
Definition st_plan (st : RunState) : RunState :=
  {| planned := S (planned st); completed := completed st; failed := failed st;
     run_warnings := run_warnings st; store := store st;
     gen_calls := gen_calls st; clock := clock st |}.

Definition st_call (c : GenCall) (st : RunState) : RunState :=
  {| planned := planned st; completed := completed st; failed := failed st;
     run_warnings := run_warnings st; store := store st;
     gen_calls := gen_calls st ++ [c]; clock := clock st |}.

Definition st_tick (st : RunState) : RunState :=
  {| planned := planned st; completed := completed st; failed := failed st;
     run_warnings := run_warnings st; store := store st;
     gen_calls := gen_calls st; clock := S (clock st) |}.

(** [failed++; runWarnings.add(w); continue;] *)
Definition st_fail (w : jsstr) (st : RunState) : RunState :=
  {| planned := planned st; completed := completed st; failed := S (failed st);
     run_warnings := set_add w (run_warnings st); store := store st;
     gen_calls := gen_calls st; clock := clock st |}.

(** A successful insert followed by [completed++]. *)
Definition st_complete (row : Evaluation) (st : RunState) : RunState :=
  {| planned := planned st; completed := S (completed st); failed := failed st;
     run_warnings := run_warnings st;
     store := with_db (store st) (evaluations (store st) ++ [row]);
     gen_calls := gen_calls st; clock := clock st |}.

(** The condition of the per-unit [catch (err)] block. *)
Definition is_quota_error (e : Thrown) : bool :=
  let msg := err_msg e in
  match err_status e with Some 429 => true | _ => false end
  || includes msg (js "quota") || includes msg (js "rate limit")
  || includes msg (js "resource_exhausted").

(** The per-unit [catch (err)] block. *)
Definition catch_unit (e : Thrown) (st : RunState) : RunState :=
  if is_quota_error e then st_fail W_QUOTA st else st_fail W_GENERIC st.

(** The request of one unit: [modelName] and [buildPrompt(...)]. *)
Definition unit_call (q : Question) (ans : Answer) (j : Judge) : GenCall :=
  {| gc_model := model_for j;
     gc_prompt := buildPrompt (system_prompt j) (question_text q)
                              (choice ans) (ans_reasoning ans) |}.

Section Orchestrator.
Context (w : World).

(** One unit of work: the body of the innermost loop from [planned++]. *)
Definition run_unit (sub : Submission) (q : Question) (ans : Answer) (j : Judge)
    (st : RunState) : RunState :=
  let st1 := st_plan st in
  let call := unit_call q ans j in
  let res := generate w (gen_calls st1) call in
  let st2 := st_call call st1 in
  match res with
  | GenThrow e => catch_unit e st2
  | GenOk text =>
      match option_map trim text with
      | None | Some [] => st_fail W_EMPTY st2
      | Some raw =>
          match json_parse (clean_response raw) with
          | None => st_fail W_PARSE st2
          | Some JNull => catch_unit destructure_null_error st2
          | Some v =>
              match jget v (js "verdict"), jget v (js "reasoning") with
              | Some vd, Some rs =>
                  if truthy_val vd && truthy_val rs then
                    let row := {| ev_submission_id := sub_id sub;
                                  ev_question_id := q_id q;
                                  ev_judge_id := judge_id j;
                                  ev_verdict := vd;
                                  ev_reasoning := rs;
                                  ev_created_at := now_iso w (clock st2) |} in
                    let st3 := st_tick st2 in
                    match insert_result w (evaluations (store st3)) row with
                    | InsOk => st_complete row st3
                    | InsErr _ => st_fail W_SAVE st3
                    | InsThrow e => catch_unit e st3
                    end
                  else st_fail W_INVALID st2
              | _, _ => st_fail W_INVALID st2
              end
          end
      end
  end.

(** [if (!judge || judge.active === false) continue;] *)
Definition judge_skipped (a : Assignment) : option Judge :=
  match judges a with
  | None => None
  | Some j => match active j with Some false => None | _ => Some j end
  end.

(** [for (const assignment of assigned)] *)
Fixpoint run_assigned (sub : Submission) (q : Question) (ans : Answer)
    (l : list Assignment) (st : RunState) : RunState :=
  match l with
  | [] => st
  | a :: l' =>
      let st' := match judge_skipped a with
                 | None => st
                 | Some j => run_unit sub q ans j st
                 end in
      run_assigned sub q ans l' st'
  end.

(** [answers.find(...)] *)
Definition find_answer (answers : list Answer) (sub : Submission) (q : Question)
  : option Answer :=
  find (fun a => jsstr_eqb (ans_submission_id a) (sub_id sub)
                 && jsstr_eqb (ans_question_id a) (q_id q)) answers.

(** Body of [for (const question of questions)]. *)
Definition run_question (answers : list Answer) (qj : list Assignment)
    (sub : Submission) (st : RunState) (q : Question) : RunState :=
  let assigned := filter (fun x => jsstr_eqb (as_question_id x) (q_id q)) qj in
  match find_answer answers sub q with
  | None => st
  | Some ans => run_assigned sub q ans assigned st
  end.

(** Body of [for (const submission of submissions)]. *)
Definition run_submission (questions : list Question) (answers : list Answer)
    (qj : list Assignment) (st : RunState) (sub : Submission) : RunState :=
  fold_left (run_question answers qj sub) questions st.

Definition run_plan (submissions : list Submission) (questions : list Question)
    (answers : list Answer) (qj : list Assignment) (st : RunState) : RunState :=
  fold_left (run_submission questions answers qj) submissions st.
End Orchestrator.

(** ** The request handler *)

Record Summary := {
  s_planned : nat;
  s_completed : nat;
  s_failed : nat;
  s_note : option jsstr;
  s_warnings : list jsstr
}.

Inductive Response :=
| Res400 (error : jsstr)
| Res500 (error : jsstr) (hint : jsstr)
| ResOk (s : Summary).

(** What one request produces: the HTTP response, the store afterwards and
    the Gemini calls issued. *)
Record Outcome := {
  response : Response;
  final_store : DB;
  llm_calls : list GenCall
}.

(** The planning phase throws its first select error to the outer
    [catch]: a small error monad. *)
Definition Result (A : Type) : Type := (Thrown + A)%type.

Definition ret {A} (x : A) : Result A := inr x.
Definition bind {A B} (m : Result A) (k : A -> Result B) : Result B :=
  match m with inl e => inl e | inr x => k x end.

Notation "'let*' x := m 'in' k" := (bind m (fun x => k))
  (at level 200, x name, m at level 100, k at level 200).

Definition initial_state (d : DB) : RunState :=
  {| planned := 0; completed := 0; failed := 0; run_warnings := [];
     store := d; gen_calls := []; clock := 0 |}.

Section Handler.
Context (w : World).

(** [const { data, error } = await supabase.from(t)...; if (error) throw error;] *)
Definition select {A} (t : Table) (rows : list A) : Result (list A) :=
  match read_error w t with Some e => inl e | None => ret rows end.

(** The embedded [judges] object of a [question_judges] row. *)
Definition join_judge (d : DB) (r : QuestionJudge) : Assignment :=
  {| as_id := qj_id r; as_question_id := qj_question_id r;
     as_judge_id := qj_judge_id r;
     judges := find (fun j => jsstr_eqb (judge_id j) (qj_judge_id r)) (judges_table d) |}.

(** Steps 1 to 4 of the handler. *)
Definition load_plan (queueId : jsstr) (d : DB)
  : Result (list Submission * list Question * list Answer * list Assignment) :=
  let* subs := select TSubmissions
                 (filter (fun s => jsstr_eqb (sub_queue_id s) queueId) (submissions d)) in
  let* qs := select TQuestions
               (filter (fun q => jsstr_eqb (q_queue_id q) queueId) (questions d)) in
  let subIds := map sub_id subs in
  let* ans := match subIds with
              | [] => ret []
              | _ => select TAnswers
                       (filter (fun a => existsb (jsstr_eqb (ans_submission_id a)) subIds)
                               (answers d))
              end in
  let* qj := select TQuestionJudges
               (map (join_judge d)
                    (filter (fun r => jsstr_eqb (qj_queue_id r) queueId)
                            (question_judges d))) in
  ret (subs, qs, ans, qj).

(** [app.post("/api/run-judges", ...)] on body [{ queueId }]. *)
Definition run_judges (queueId : option jsstr) (d : DB) : Outcome :=
  match queueId with
  | None | Some [] =>
      {| response := Res400 ERR_MISSING_QUEUE; final_store := d; llm_calls := [] |}
  | Some qid =>
      match load_plan qid d with
      | inl e =>
          {| response := Res500 ERR_INTERNAL (classifyGeminiError e);
             final_store := d; llm_calls := [] |}
      | inr (subs, qs, ans, qj) =>
          if (List.length subs =? 0)%nat || (List.length qs =? 0)%nat
             || (List.length qj =? 0)%nat then
            {| response := ResOk {| s_planned := 0; s_completed := 0; s_failed := 0;
                                    s_note := Some NOTE_NOTHING; s_warnings := [] |};
               final_store := d; llm_calls := [] |}
          else
            let st := run_plan w subs qs ans qj (initial_state d) in
            {| response := ResOk {| s_planned := planned st;
                                    s_completed := completed st;
                                    s_failed := failed st;
                                    s_note := None;
                                    s_warnings := run_warnings st |};
               final_store := store st; llm_calls := gen_calls st |}
      end
  end.
End Handler.

(** ** Fixtures: one queue with one submission and two questions *)

(** Source text with [']  standing for the double quote. *)
Definition jsq (s : string) : jsstr :=
  map (fun c => if c =? 39 then 34 else c) (js s).

Definition fx_sub : Submission :=
  {| sub_id := js "s1"; sub_queue_id := js "queue1"; labeling_task_id := None;
     sub_created_at := js "2025-01-01T00:00:00Z" |}.

Definition fx_qA : Question :=
  {| q_id := js "qA"; q_queue_id := js "queue1";
     question_text := Some (js "Is the sky blue?");
     question_type := Some (js "single_choice_with_reasoning") |}.

Definition fx_qB : Question :=
  {| q_id := js "qB"; q_queue_id := js "queue1";
     question_text := Some (js "Is water wet?");
     question_type := Some (js "single_choice_with_reasoning") |}.

Definition fx_ansA : Answer :=
  {| ans_submission_id := js "s1"; ans_question_id := js "qA";
     choice := Some (js "yes"); ans_reasoning := Some (js "It scatters blue light.") |}.

Definition fx_ansB : Answer :=
  {| ans_submission_id := js "s1"; ans_question_id := js "qB";
     choice := Some (js "no"); ans_reasoning := None |}.

Definition fx_judge (id : string) (act : option bool) : Judge :=
  {| judge_id := js id; judge_name := js "Strict grader";
     system_prompt := Some (js "Grade strictly."); model_name := None;
     active := act |}.

Definition fx_qj (id qid jid : string) : QuestionJudge :=
  {| qj_id := js id; qj_queue_id := js "queue1"; qj_question_id := js qid;
     qj_judge_id := js jid |}.

(** [judges] rows and assignment rows are parameters of the fixture. *)
Definition fx_db (js_ : list Judge) (qjs : list QuestionJudge) : DB :=
  {| submissions := [fx_sub]; questions := [fx_qA; fx_qB];
     answers := [fx_ansA; fx_ansB]; judges_table := js_;
     question_judges := qjs; evaluations := [] |}.

Definition fx_pass_text : jsstr := jsq "{'verdict':'pass','reasoning':'ok'}".

Definition fx_timeout : Thrown :=
  {| err_status := Some 504; err_message := js "Deadline exceeded: request timeout";
     err_string := js "Error: Deadline exceeded: request timeout" |}.

(** Gemini answers by prompt; every insert and every select succeeds. *)
Definition fx_world (reply : jsstr -> GenResult) : World :=
  {| generate := fun _ c => reply (gc_prompt c);
     insert_result := fun _ _ => InsOk;
     now_iso := fun _ => js "2025-01-01T00:00:00.000Z";
     read_error := fun _ => None |}.

(** Question A is judged [pass]; the call for question B times out. *)
Definition fx_reply_AB (prompt : jsstr) : GenResult :=
  if includes prompt (js "Question: Is the sky blue?") then GenOk (Some fx_pass_text)
  else GenThrow fx_timeout.

Definition fx_reply (text : jsstr) (prompt : jsstr) : GenResult := GenOk (Some text).

(** ** Relations between loop states used by the proofs *)

(** A row reaching the insert carries truthy verdict and reasoning. *)
Definition row_truthy (r : Evaluation) : Prop :=
  truthy_val (ev_verdict r) = true /\ truthy_val (ev_reasoning r) = true.

(** The counters move together: [planned] grows as much as
    [completed + failed]. *)
Definition counts_step (st st' : RunState) : Prop :=
  (planned st' + completed st + failed st = planned st + completed st' + failed st')%nat.

(** The store only gains truthy rows at the end of [evaluations]. *)
Definition store_step (st st' : RunState) : Prop :=
  exists new, store st' = with_db (store st) (evaluations (store st) ++ new)
              /\ Forall row_truthy new.

(** ** Concrete scenarios *)

Definition fx_queue : jsstr := js "queue1".
Definition fx_active_judge : Judge := fx_judge "j1" (Some true).

(** Spec scenario: one submission, questions A and B, each assigned the
    same active judge. *)
Definition fx_db_AB : DB :=
  fx_db [fx_active_judge] [fx_qj "a1" "qA" "j1"; fx_qj "a2" "qB" "j1"].

Definition fx_world_AB : World := fx_world fx_reply_AB.

(** Only question A is assigned. *)
Definition fx_db_A : DB := fx_db [fx_active_judge] [fx_qj "a1" "qA" "j1"].

(** Question A is assigned twice to the same judge. *)
Definition fx_db_dup : DB :=
  fx_db [fx_active_judge] [fx_qj "a1" "qA" "j1"; fx_qj "a1bis" "qA" "j1"].

(** The planning read of [submissions] fails. *)
Definition fx_world_read_error : World :=
  {| generate := fun _ _ => GenOk None;
     insert_result := fun _ _ => InsOk;
     now_iso := fun _ => js "2025-01-01T00:00:00.000Z";
     read_error := fun t => match t with TSubmissions => Some fx_timeout | _ => None end |}.

(** A fenced payload whose reasoning is three backticks. *)
Definition fx_inner_ticks : jsstr := jsq "
{'verdict':'pass','reasoning':'```'}
".

(** A fenced, well-formed payload. *)
Definition fx_inner_ok : jsstr := jsq "
{'verdict':'pass','reasoning':'ok'}
".

Definition fx_fenced (inner : jsstr) : jsstr := js "```json" ++ inner ++ ticks3.

(** ** Warnings a unit can add *)

Definition unit_messages : list jsstr :=
  [W_EMPTY; W_PARSE; W_INVALID; W_SAVE; W_QUOTA; W_GENERIC].


(** ** The caller: [handleRunJudges] of src/src/pages/QueuePage.tsx *)

(** [RunStatus]: its [kind] and [message]. *)
Inductive StatusKind := KIdle | KInfo | KSuccess | KError.

Record RunStatus := { kind : StatusKind; message : jsstr }.

Definition MSG_NO_QUESTIONS : jsstr :=
  js "There are no questions in this queue. Import data first.".
Definition MSG_NO_JUDGES : jsstr :=
  js "No active judges found. Create and activate judges first.".
Definition MSG_NO_ASSIGNMENTS : jsstr :=
  js "No judge assignments found. Assign at least one judge to a question before running.".
Definition MSG_RUN_FAILED : jsstr := js "Failed to run AI judges.".
(** The em dash is the code unit 8212. *)
Definition MSG_NETWORK : jsstr :=
  js "Failed to run AI judges. Possible network or backend error " ++ [8212]
  ++ js " check backend logs.".

(** The checks before the request, on the page's loaded [questions],
    [judges] (active ones) and [questionJudges]: given by their lengths,
    the only thing the checks read. *)
Inductive ClickStep :=
| NoRequest
| Blocked (s : RunStatus)
| Post (queueId : jsstr).

Definition click_step (queueId : option jsstr) (n_questions n_judges n_qj : nat)
  : ClickStep :=
  match queueId with
  | None | Some [] => NoRequest
  | Some q =>
      if (n_questions =? 0)%nat then Blocked {| kind := KError; message := MSG_NO_QUESTIONS |}
      else if (n_judges =? 0)%nat then Blocked {| kind := KError; message := MSG_NO_JUDGES |}
      else if (n_qj =? 0)%nat then Blocked {| kind := KError; message := MSG_NO_ASSIGNMENTS |}
      else Post q
  end.

(** [`${n}`] for a natural number. *)
Fixpoint decimal_rev (fuel n : nat) : jsstr :=
  match fuel with
  | O => []
  | S f => (48 + Z.of_nat (n mod 10))%Z
           :: (if (n <? 10)%nat then [] else decimal_rev f (n / 10))
  end.

Definition show_nat (n : nat) : jsstr := rev (decimal_rev (S n) n).

(** [warnings.join(" ")] *)
Fixpoint join_space (ws : list jsstr) : jsstr :=
  match ws with
  | [] => []
  | [x] => x
  | x :: r => x ++ js " " ++ join_space r
  end.

(** The [!res.ok] branch: [data.error] if a non-empty string, else the
    default; then [hint] appended when it is a non-empty string. *)
Definition error_status (err : jsstr) (hint : option jsstr) : RunStatus :=
  let backendError := match err with [] => MSG_RUN_FAILED | _ => err end in
  {| kind := KError;
     message := match hint with
                | Some ((_ :: _) as h) => backendError ++ js " " ++ h
                | _ => backendError
                end |}.

(** What the page shows for the outcome of [fetch]: [None] when the
    request itself rejects; otherwise the backend's response, whose body
    [res.json()] reads back. *)
Definition page_status (r : option Response) : RunStatus :=
  match r with
  | None => {| kind := KError; message := MSG_NETWORK |}
  | Some (Res400 err) => error_status err None
  | Some (Res500 err hint) => error_status err (Some hint)
  | Some (ResOk s) =>
      let summary := js "Planned: " ++ show_nat (s_planned s)
                     ++ js ", Completed: " ++ show_nat (s_completed s)
                     ++ js ", Failed: " ++ show_nat (s_failed s) in
      let note := match s_note s with Some n => js " " ++ n | None => [] end in
      let warnings := match s_warnings s with
                      | [] => []
                      | ws => js " Warnings: " ++ join_space ws
                      end in
      {| kind := match s_warnings s with [] => KSuccess | _ => KError end;
         message := summary ++ note ++ warnings |}
  end.

(** One click on the button with the backend reachable: the status the
    page ends with ([None]: the handler returned at once). *)
Definition handle_run_judges (w : World) (d : DB) (queueId : option jsstr)
    (n_questions n_judges n_qj : nat) : option RunStatus :=
  match click_step queueId n_questions n_judges n_qj with
  | NoRequest => None
  | Blocked s => Some s
  | Post q => Some (page_status (Some (response (run_judges w (Some q) d))))
  end.

(** ** Further scenarios *)

(** Every Gemini call times out. *)
Definition fx_world_down : World := fx_world (fun _ => GenThrow fx_timeout).

(** The planning read of [answers] fails. *)
Definition fx_world_answers_error : World :=
  {| generate := generate fx_world_AB;
     insert_result := insert_result fx_world_AB;
     now_iso := now_iso fx_world_AB;
     read_error := fun t => match t with TAnswers => Some fx_timeout | _ => None end |}.


(** Question A has two rows for judge j1, one for j2 and one for the
    inactive j3; question B has one row for j2. *)
Definition fx_db_dup_mixed : DB :=
  fx_db [fx_active_judge; fx_judge "j2" (Some true); fx_judge "j3" (Some false)]
        [fx_qj "a1" "qA" "j1"; fx_qj "a1bis" "qA" "j1"; fx_qj "a3" "qA" "j2";
         fx_qj "a5" "qA" "j3"; fx_qj "a4" "qB" "j2"].

(** The summary of the spec scenario. *)
Definition fx_summary_AB : Summary :=
  {| s_planned := 2; s_completed := 1; s_failed := 1; s_note := None;
     s_warnings := [W_GENERIC] |}.

(** The summary of the spec scenario with every Gemini call timing out. *)
Definition fx_summary_down : Summary :=
  {| s_planned := 2; s_completed := 0; s_failed := 2; s_note := None;
     s_warnings := [W_GENERIC] |}.

(** A quota error reported in the message only. *)
Definition fx_quota_error : Thrown :=
  {| err_status := None; err_message := js "Quota exceeded for this project";
     err_string := js "Error: Quota exceeded for this project" |}.

(** * Properties of the orchestrator *)

Section Facts.
Context (w : World).

Lemma catch_unit_cases (e : Thrown) (st : RunState) :
  catch_unit e st = st_fail W_QUOTA st \/ catch_unit e st = st_fail W_GENERIC st.
Proof. unfold catch_unit. destruct (is_quota_error e); auto. Qed.

Ltac early_fail := left; eexists; reflexivity.

(** Every unit ends in one of three ways: a failure before the insert,
    a failure of the insert, or a completed insert of a truthy row. *)
Lemma run_unit_cases sub q ans j st :
  let st2 := st_call (unit_call q ans j) (st_plan st) in
  (exists m, run_unit w sub q ans j st = st_fail m st2)
  \/ (exists m, run_unit w sub q ans j st = st_fail m (st_tick st2))
  \/ (exists row, row_truthy row
                  /\ run_unit w sub q ans j st = st_complete row (st_tick st2)).
Proof.
  intros st2. unfold run_unit. fold st2.
  destruct (generate w _ _) as [e | text].
  { left. destruct (catch_unit_cases e st2) as [H | H]; rewrite H; eexists; reflexivity. }
  destruct (option_map trim text) as [[ | c raw] | ]; try early_fail.
  destruct (json_parse _) as [v | ]; [ | early_fail].
  destruct v;
    try (left; destruct (catch_unit_cases destructure_null_error st2) as [H | H];
         rewrite H; eexists; reflexivity);
    (destruct (jget _ (js "verdict")) as [vd | ]; [ | early_fail]);
    (destruct (jget _ (js "reasoning")) as [rs | ]; [ | early_fail]);
    (destruct (truthy_val vd) eqn:Hv; [ | early_fail]);
    (destruct (truthy_val rs) eqn:Hr; [ | early_fail]); simpl;
    (match goal with |- context [insert_result w ?E ?R] => destruct (insert_result w E R) end;
    [ right; right; eexists; split; [ | reflexivity ]; split; simpl; assumption
    | right; left; eexists; reflexivity
    | right; left; destruct (catch_unit_cases e (st_tick st2)) as [H | H];
      rewrite H; eexists; reflexivity ]).
Qed.

(** ** Lifting a property of one unit to the whole plan *)
Section Lift.
Variable R : RunState -> RunState -> Prop.
Hypothesis R_refl : forall st, R st st.
Hypothesis R_trans : forall a b c, R a b -> R b c -> R a c.
Hypothesis R_unit : forall sub q ans j st, R st (run_unit w sub q ans j st).

Lemma run_assigned_R sub q ans l :
  forall st, R st (run_assigned w sub q ans l st).
Proof.
  induction l as [ | a l IH]; intros st; simpl; [apply R_refl | ].
  eapply R_trans; [ | apply IH].
  destruct (judge_skipped a); [apply R_unit | apply R_refl].
Qed.

Lemma fold_left_R {A} (f : RunState -> A -> RunState) (l : list A) :
  (forall st x, R st (f st x)) -> forall st, R st (fold_left f l st).
Proof.
  intros Hf. induction l as [ | x l IH]; intros st; simpl; [apply R_refl | ].
  eapply R_trans; [apply Hf | apply IH].
Qed.

Lemma run_plan_R subs qs ans qj st :
  R st (run_plan w subs qs ans qj st).
Proof.
  unfold run_plan. apply fold_left_R. intros st1 sub.
  unfold run_submission. apply fold_left_R. intros st2 q.
  unfold run_question. destruct (find_answer ans sub q);
    [apply run_assigned_R | apply R_refl].
Qed.
End Lift.

(** ** Counters *)

Lemma run_unit_counters sub q ans j st :
  let st' := run_unit w sub q ans j st in
  planned st' = S (planned st)
  /\ ((completed st' = S (completed st) /\ failed st' = failed st)
      \/ (completed st' = completed st /\ failed st' = S (failed st))).
Proof.
  simpl. destruct (run_unit_cases sub q ans j st) as [[m H] | [[m H] | [row [_ H]]]];
    rewrite H; simpl; auto.
Qed.

Lemma run_plan_counts subs qs ans qj st :
  counts_step st (run_plan w subs qs ans qj st).
Proof.
  apply run_plan_R; unfold counts_step; [intros; lia | intros; lia | ].
  intros sub q ans' j st1.
  destruct (run_unit_counters sub q ans' j st1) as [Hp [[Hc Hf] | [Hc Hf]]]; lia.
Qed.

(** ** Store frame *)

Lemma with_db_same (d : DB) : with_db d (evaluations d) = d.
Proof. destruct d; reflexivity. Qed.

Lemma with_db_twice (d : DB) e1 e2 : with_db (with_db d e1) e2 = with_db d e2.
Proof. reflexivity. Qed.

Lemma run_plan_store subs qs ans qj st :
  store_step st (run_plan w subs qs ans qj st).
Proof.
  apply run_plan_R; unfold store_step.
  - intros st1. exists []. rewrite app_nil_r, with_db_same. split; auto.
  - intros a b c [n1 [H1 F1]] [n2 [H2 F2]]. exists (n1 ++ n2). split.
    + rewrite H2, H1. simpl. rewrite app_assoc. reflexivity.
    + apply Forall_app; auto.
  - intros sub q ans' j st1.
    destruct (run_unit_cases sub q ans' j st1) as [[m H] | [[m H] | [row [Hr H]]]];
      rewrite H.
    + exists []. rewrite app_nil_r, with_db_same. auto.
    + exists []. rewrite app_nil_r, with_db_same. auto.
    + exists [row]. split; [reflexivity | auto].
Qed.
End Facts.

Section Claims.
Context (w : World).

Lemma run_judges_store (qid : option jsstr) (d : DB) :
  exists new, final_store (run_judges w qid d) = with_db d (evaluations d ++ new)
              /\ Forall row_truthy new.
Proof.
  unfold run_judges.
  destruct qid as [[ | c qid] | ];
    try (exists []; rewrite app_nil_r, with_db_same; auto; fail).
  destruct (load_plan w (c :: qid) d) as [e | [[[subs qs] ans] qj]];
    [exists []; rewrite app_nil_r, with_db_same; auto | ].
  destruct (_ || _); [exists []; rewrite app_nil_r, with_db_same; auto | ].
  exact (run_plan_store w subs qs ans qj (initial_state d)).
Qed.

(** C1: every unit increments [planned] once and then exactly one of
    [completed] and [failed]; hence every summary the handler returns
    has [planned = completed + failed]. *)
Theorem run_judges_counts_balanced :
  (forall sub q ans j st,
      let st' := run_unit w sub q ans j st in
      planned st' = S (planned st)
      /\ ((completed st' = S (completed st) /\ failed st' = failed st)
          \/ (completed st' = completed st /\ failed st' = S (failed st))))
  /\ (forall qid d s,
        response (run_judges w qid d) = ResOk s ->
        s_planned s = (s_completed s + s_failed s)%nat).
Proof.
  split; [exact (run_unit_counters w) | ].
  intros qid d s H. unfold run_judges in H.
  destruct qid as [[ | c qid] | ]; try discriminate.
  destruct (load_plan w (c :: qid) d) as [e | [[[subs qs] ans] qj]]; [discriminate | ].
  destruct (_ || _); simpl in H; injection H as <-; [reflexivity | ]. simpl.
  pose proof (run_plan_counts w subs qs ans qj (initial_state d)) as Hc.
  unfold counts_step in Hc. simpl in Hc. lia.
Qed.

(** C4: when the queue has no submissions, no questions or no
    assignments, the handler answers zero counters with the note, calls
    no LLM and leaves the store as it was. *)
Theorem run_judges_empty_short_circuit (qid : jsstr) (d : DB)
    subs qs ans qj :
  qid <> [] ->
  load_plan w qid d = inr (subs, qs, ans, qj) ->
  subs = [] \/ qs = [] \/ qj = [] ->
  run_judges w (Some qid) d =
    {| response := ResOk {| s_planned := 0; s_completed := 0; s_failed := 0;
                            s_note := Some NOTE_NOTHING; s_warnings := [] |};
       final_store := d; llm_calls := [] |}.
Proof.
  intros Hq Hl He. unfold run_judges.
  destruct qid as [ | c qid]; [congruence | ]. rewrite Hl.
  destruct He as [-> | [-> | ->]]; simpl;
    [ | rewrite orb_true_r; reflexivity | rewrite !orb_true_r; reflexivity].
  reflexivity.
Qed.

(** C8: a run changes no collection but [evaluations], and only appends
    rows to it. *)
Theorem run_judges_writes_only_evaluations (qid : option jsstr) (d : DB) :
  let d' := final_store (run_judges w qid d) in
  submissions d' = submissions d /\ questions d' = questions d
  /\ answers d' = answers d /\ judges_table d' = judges_table d
  /\ question_judges d' = question_judges d
  /\ exists new, evaluations d' = evaluations d ++ new.
Proof.
  destruct (run_judges_store qid d) as [new [H _]]. cbv zeta. rewrite H.
  repeat split. exists new. reflexivity.
Qed.
End Claims.

Lemma jsstr_eqb_true (a b : jsstr) : jsstr_eqb a b = true -> a = b.
Proof.
  revert b. induction a as [ | c a IH]; intros [ | c' b] H; simpl in H;
    try discriminate; [reflexivity | ].
  apply andb_true_iff in H as [H1 H2]. apply Z.eqb_eq in H1. subst c'.
  f_equal. now apply IH.
Qed.

Lemma set_add_In (m : jsstr) (ws : list jsstr) : In m (set_add m ws).
Proof.
  unfold set_add. destruct (existsb (jsstr_eqb m) ws) eqn:E.
  - apply existsb_exists in E as [x [Hx Hm]].
    apply jsstr_eqb_true in Hm. now subst x.
  - apply in_or_app. right. left. reflexivity.
Qed.

Lemma fold_left_ext_fun {A B} (f g : A -> B -> A) (l : list B) :
  (forall acc x, f acc x = g acc x) -> forall acc, fold_left f l acc = fold_left g l acc.
Proof.
  intros H. induction l as [ | x l IH]; intros acc; simpl; [reflexivity | ].
  rewrite H. apply IH.
Qed.

Section UnitClaims.
Context (w : World).

Lemma run_unit_calls sub q ans j st :
  gen_calls (run_unit w sub q ans j st) = gen_calls st ++ [unit_call q ans j].
Proof.
  destruct (run_unit_cases w sub q ans j st) as [[m H] | [[m H] | [row [_ H]]]];
    rewrite H; reflexivity.
Qed.

Lemma run_assigned_app sub q ans l1 l2 st :
  run_assigned w sub q ans (l1 ++ l2) st
  = run_assigned w sub q ans l2 (run_assigned w sub q ans l1 st).
Proof.
  revert st. induction l1 as [ | a l1 IH]; intros st; simpl; [reflexivity | apply IH].
Qed.

Lemma run_question_skip answers qj1 a qj2 sub st q :
  judge_skipped a = None ->
  run_question w answers (qj1 ++ a :: qj2) sub st q
  = run_question w answers (qj1 ++ qj2) sub st q.
Proof.
  intros Hs. unfold run_question. destruct (find_answer answers sub q); [ | reflexivity].
  rewrite !filter_app. simpl. rewrite !run_assigned_app.
  destruct (jsstr_eqb _ _); simpl; [rewrite Hs | ]; reflexivity.
Qed.

(** C2 (amended): a unit whose Gateway call throws is counted failed and
    adds one of two warnings: the quota message when the status is 429
    or the lower-cased message names quota, rate limit or
    resource_exhausted, the generic message otherwise (timeouts and
    credential errors included).  The four-way [classifyGeminiError]
    only gives the hint of the server error of a failed planning read. *)
Theorem gateway_error_two_categories :
  (forall sub q ans j st e,
      generate w (gen_calls st) (unit_call q ans j) = GenThrow e ->
      run_unit w sub q ans j st
      = st_fail (if is_quota_error e then W_QUOTA else W_GENERIC)
                (st_call (unit_call q ans j) (st_plan st)))
  /\ (forall qid d e,
        qid <> [] -> load_plan w qid d = inl e ->
        response (run_judges w (Some qid) d) = Res500 ERR_INTERNAL (classifyGeminiError e)).
Proof.
  split.
  - intros sub q ans j st e Hg. unfold run_unit. simpl. rewrite Hg.
    unfold catch_unit. destruct (is_quota_error e); reflexivity.
  - intros qid d e Hq Hl. unfold run_judges. destruct qid as [ | c qid]; [congruence | ].
    rewrite Hl. reflexivity.
Qed.

(** C6: an assignment whose joined judge is missing or has
    [active === false] contributes nothing: removing it leaves the whole
    plan execution (counters, warnings, store, Gemini calls) unchanged;
    a judge whose [active] is absent is run. *)
Theorem inactive_or_missing_judge_contributes_nothing :
  (forall subs qs answers qj1 a qj2 st,
      (judges a = None \/ exists j, judges a = Some j /\ active j = Some false) ->
      run_plan w subs qs answers (qj1 ++ a :: qj2) st
      = run_plan w subs qs answers (qj1 ++ qj2) st)
  /\ (forall sub q ans a j st,
        judges a = Some j -> active j = None ->
        run_assigned w sub q ans [a] st = run_unit w sub q ans j st).
Proof.
  split.
  - intros subs qs answers qj1 a qj2 st Ha.
    assert (Hs : judge_skipped a = None).
    { unfold judge_skipped. destruct Ha as [-> | [j [-> Hj]]]; [reflexivity | now rewrite Hj]. }
    unfold run_plan. apply fold_left_ext_fun. intros st1 sub.
    unfold run_submission. apply fold_left_ext_fun. intros st2 q.
    now apply run_question_skip.
  - intros sub q ans a j st Hj Ha. simpl. unfold judge_skipped. now rewrite Hj, Ha.
Qed.

(** C7: a unit whose response parses as JSON but lacks a truthy
    [verdict] or a truthy [reasoning] is counted failed, adds a warning
    (the invalid-payload one; when the payload is [null] the destructuring
    throws and the generic one) and writes no Evaluation. *)
Theorem invalid_payload_fails sub q ans j st text v :
  generate w (gen_calls st) (unit_call q ans j) = GenOk (Some text) ->
  trim text <> [] ->
  json_parse (clean_response (trim text)) = Some v ->
  truthy (jget v (js "verdict")) && truthy (jget v (js "reasoning")) = false ->
  let m := match v with JNull => W_GENERIC | _ => W_INVALID end in
  let st' := run_unit w sub q ans j st in
  st' = st_fail m (st_call (unit_call q ans j) (st_plan st))
  /\ failed st' = S (failed st) /\ completed st' = completed st
  /\ store st' = store st /\ In m (run_warnings st').
Proof.
  intros Hg Ht Hp Hv m st'.
  assert (E : st' = st_fail m (st_call (unit_call q ans j) (st_plan st))).
  { subst st'. unfold run_unit. simpl. rewrite Hg. simpl.
    destruct (trim text) as [ | c raw]; [congruence | ]. rewrite Hp.
    subst m. revert Hv. destruct v; [reflexivity | ..]; cbn -[jget js];
      (destruct (jget _ (js "verdict")) as [vd | ]; [ | reflexivity]);
      (destruct (jget _ (js "reasoning")) as [rs | ]; [ | reflexivity]);
      simpl; intros Hv; rewrite Hv; reflexivity. }
  rewrite E. repeat split. apply set_add_In.
Qed.

(** A question's assignment loop is the fold of [run_unit] over the
    judges of its rows that are not skipped, one entry per row. *)
Lemma run_assigned_units sub q a l st :
  run_assigned w sub q a l st
  = fold_left (fun s j => run_unit w sub q a j s)
      (flat_map (fun x => match judge_skipped x with Some j => [j] | None => [] end) l) st.
Proof.
  revert st. induction l as [ | x l IH]; intros st; simpl; [reflexivity | ].
  destruct (judge_skipped x); simpl; apply IH.
Qed.

Lemma fold_units_counts sub q a units st :
  planned (fold_left (fun s j => run_unit w sub q a j s) units st)
  = (planned st + List.length units)%nat
  /\ gen_calls (fold_left (fun s j => run_unit w sub q a j s) units st)
     = gen_calls st ++ map (unit_call q a) units.
Proof.
  revert st. induction units as [ | j units IH]; intros st; simpl.
  - rewrite app_nil_r. split; [lia | reflexivity].
  - destruct (IH (run_unit w sub q a j st)) as [Hp Hc]. rewrite Hp, Hc, run_unit_calls.
    destruct (run_unit_counters w sub q a j st) as [Hp' _]. rewrite Hp'.
    split; [lia | now rewrite <- app_assoc].
Qed.

(** C10: every assignment row of a question is its own unit of work for a
    submission that answered it: [units] holds the judge of each row of
    the question whose judge is present and not inactive, in row order,
    a duplicated row once per copy; the question's step runs one full
    unit (planned, Gemini call, insert on success) per entry, so
    [planned] grows by the number of such rows and one Gemini call is
    made for each. *)
Theorem duplicate_assignments_run_separately answers qj sub q a st :
  find_answer answers sub q = Some a ->
  let units := flat_map (fun x => match judge_skipped x with Some j => [j] | None => [] end)
                 (filter (fun x => jsstr_eqb (as_question_id x) (q_id q)) qj) in
  let st' := run_question w answers qj sub st q in
  st' = fold_left (fun s j => run_unit w sub q a j s) units st
  /\ planned st' = (planned st + List.length units)%nat
  /\ gen_calls st' = gen_calls st ++ map (unit_call q a) units.
Proof.
  intros Hf units st'.
  assert (E : st' = fold_left (fun s j => run_unit w sub q a j s) units st).
  { subst st' units. unfold run_question. rewrite Hf. apply run_assigned_units. }
  rewrite E. split; [reflexivity | apply fold_units_counts].
Qed.
End UnitClaims.

(** ** Fence stripping *)

Section Fences.

Lemma strip_json_fence_step a s1 :
  (forall b c d e f g r, s1 = b :: c :: d :: e :: f :: g :: r ->
     is_tick a && is_tick b && is_tick c && ci 106 d && ci 115 e
     && ci 111 f && ci 110 g = false) ->
  strip_json_fence (a :: s1) = a :: strip_json_fence s1.
Proof.
  intros H. destruct s1 as [ | b [ | c [ | d [ | e [ | f [ | g r]]]]]];
    try reflexivity.
  simpl. rewrite (H b c d e f g r eq_refl). reflexivity.
Qed.

Lemma strip_ticks_step a s1 :
  (forall b c r, s1 = b :: c :: r -> is_tick a && is_tick b && is_tick c = false) ->
  strip_ticks (a :: s1) = a :: strip_ticks s1.
Proof.
  intros H. destruct s1 as [ | b [ | c r]]; try reflexivity.
  simpl. rewrite (H b c r eq_refl). reflexivity.
Qed.

Lemma no_triple_tail a s : no_triple (a :: s) = true -> no_triple s = true.
Proof.
  simpl. destruct s as [ | b [ | c r]]; auto.
  intros H. apply andb_true_iff in H. tauto.
Qed.

Lemma no_triple_window a b c r :
  no_triple (a :: b :: c :: r) = true -> is_tick a && is_tick b && is_tick c = false.
Proof.
  simpl. intros H. apply andb_true_iff in H as [H _]. now apply negb_true_iff in H.
Qed.





(** The closing fence: [u ++ "```"] loses exactly its last three
    backticks. *)
Lemma strip_ticks_closing u : no_triple u = true -> strip_ticks (u ++ ticks3) = u.
Proof.
  induction u as [ | a u IH]; intros H; [reflexivity | ].
  pose proof (no_triple_tail _ _ H) as Hu. specialize (IH Hu).
  destruct u as [ | b [ | c u']].
  - simpl. destruct (is_tick a) eqn:Ha; simpl; [ | reflexivity].
    apply Z.eqb_eq in Ha. now subst a.
  - destruct (is_tick a && is_tick b) eqn:Hab.
    + apply andb_true_iff in Hab as [Ha Hb]. apply Z.eqb_eq in Ha, Hb.
      now subst a b.
    + change ((a :: [b]) ++ ticks3) with (a :: ([b] ++ ticks3)).
      rewrite strip_ticks_step, IH; [reflexivity | ].
      intros b' c' r E. injection E as <- <- _. now rewrite Hab.
  - change ((a :: b :: c :: u') ++ ticks3) with (a :: ((b :: c :: u') ++ ticks3)).
    rewrite strip_ticks_step; [now rewrite IH | ].
    intros b' c' r E. simpl in E. injection E as <- <- _.
    now apply no_triple_window in H.
Qed.

Lemma strip_json_fence_closing u :
  no_triple u = true -> strip_json_fence (u ++ ticks3) = u ++ ticks3.
Proof.
  induction u as [ | a u IH]; intros H; [reflexivity | ].
  pose proof (no_triple_tail _ _ H) as Hu. specialize (IH Hu).
  change ((a :: u) ++ ticks3) with (a :: (u ++ ticks3)).
  rewrite strip_json_fence_step; [now rewrite IH | ].
  intros b c d e f g r E.
  destruct u as [ | b' [ | c' u']]; simpl in E; try discriminate.
  injection E as <- <- _. apply no_triple_window in H. now rewrite H.
Qed.

Lemma trim_start_tick s : trim_start (96 :: s) = 96 :: s.
Proof. reflexivity. Qed.

Lemma trim_closing_tick s : trim_end (s ++ [96]) = s ++ [96].
Proof.
  unfold trim_end. rewrite rev_app_distr. simpl. now rewrite rev_involutive.
Qed.
End Fences.

Section FenceFacts.








Lemma fenced_trim u : trim (js "```json" ++ u ++ ticks3) = js "```json" ++ u ++ ticks3.
Proof.
  replace (js "```json" ++ u ++ ticks3) with ((js "```json" ++ u ++ [96; 96]) ++ [96])
    by (rewrite <- !app_assoc; reflexivity).
  unfold trim.
  change ((js "```json" ++ u ++ [96; 96]) ++ [96])
    with (96 :: ((js "``json" ++ u ++ [96; 96]) ++ [96])).
  rewrite trim_start_tick.
  change (96 :: ((js "``json" ++ u ++ [96; 96]) ++ [96]))
    with ((js "```json" ++ u ++ [96; 96]) ++ [96]).
  apply trim_closing_tick.
Qed.

Lemma clean_fenced u :
  no_triple u = true -> clean_response (js "```json" ++ u ++ ticks3) = trim u.
Proof.
  intros H. unfold clean_response.
  change (strip_json_fence (js "```json" ++ u ++ ticks3))
    with (strip_json_fence (u ++ ticks3)).
  rewrite strip_json_fence_closing, strip_ticks_closing by exact H. reflexivity.
Qed.
End FenceFacts.

Section FenceClaims.
Context (w : World).


(** C5 (amended): a response [```json] + [u] + [```] whose inner text
    [u] holds no [```] is cleaned to [u] trimmed; when that parses to a
    payload with truthy [verdict] and [reasoning] and the insert
    succeeds, the unit is completed and its row appended. *)
Theorem fenced_response_completes sub q ans j st u v vd rs :
  no_triple u = true ->
  generate w (gen_calls st) (unit_call q ans j)
    = GenOk (Some (js "```json" ++ u ++ ticks3)) ->
  json_parse (trim u) = Some v ->
  jget v (js "verdict") = Some vd -> jget v (js "reasoning") = Some rs ->
  truthy_val vd = true -> truthy_val rs = true ->
  let row := {| ev_submission_id := sub_id sub; ev_question_id := q_id q;
                ev_judge_id := judge_id j; ev_verdict := vd; ev_reasoning := rs;
                ev_created_at := now_iso w (clock st) |} in
  insert_result w (evaluations (store st)) row = InsOk ->
  let st' := run_unit w sub q ans j st in
  st' = st_complete row (st_tick (st_call (unit_call q ans j) (st_plan st)))
  /\ completed st' = S (completed st) /\ failed st' = failed st
  /\ evaluations (store st') = evaluations (store st) ++ [row].
Proof.
  intros Hu Hg Hp Hvd Hrs Hv Hr row Hins st'.
  assert (E : st' = st_complete row (st_tick (st_call (unit_call q ans j) (st_plan st)))).
  { subst st'. remember (js "```json" ++ u ++ ticks3) as raw eqn:ER.
    assert (Ht : trim raw = raw) by (subst raw; apply fenced_trim).
    unfold run_unit. cbv zeta.
    change (gen_calls (st_plan st)) with (gen_calls st). rewrite Hg.
    cbn [option_map]. rewrite Ht.
    destruct raw as [ | c0 l0]; [destruct u; discriminate | ].
    rewrite ER, clean_fenced, Hp by exact Hu.
    destruct v; [discriminate Hvd | ..]; cbn -[jget js];
      rewrite Hvd, Hrs, Hv, Hr; simpl; fold row; rewrite Hins; reflexivity. }
  rewrite E. repeat split.
Qed.



End FenceClaims.

Section PayloadRows.
Context (w : World).

(** The row a unit appends, if any, is built from the verdict and the
    reasoning of the payload parsed from its Gemini response. *)
Lemma run_unit_row_source sub q ans j st :
  evaluations (store (run_unit w sub q ans j st)) = evaluations (store st)
  \/ exists text v vd rs,
       generate w (gen_calls st) (unit_call q ans j) = GenOk (Some text)
       /\ json_parse (clean_response (trim text)) = Some v
       /\ jget v (js "verdict") = Some vd /\ jget v (js "reasoning") = Some rs
       /\ truthy_val vd = true /\ truthy_val rs = true
       /\ evaluations (store (run_unit w sub q ans j st))
          = evaluations (store st)
            ++ [{| ev_submission_id := sub_id sub; ev_question_id := q_id q;
                   ev_judge_id := judge_id j; ev_verdict := vd; ev_reasoning := rs;
                   ev_created_at := now_iso w (clock st) |}].
Proof.
  unfold run_unit. cbv zeta.
  destruct (generate w (gen_calls (st_plan st)) (unit_call q ans j)) as [e | [text | ]] eqn:Hg;
    [left; unfold catch_unit; destruct (is_quota_error e); reflexivity | | left; reflexivity].
  cbn [option_map].
  destruct (trim text) as [ | c raw] eqn:Ht; [left; reflexivity | ].
  destruct (json_parse (clean_response (c :: raw))) as [v | ] eqn:Hp; [ | left; reflexivity].
  destruct v;
    try (left; unfold catch_unit; destruct (is_quota_error _); reflexivity; fail);
    (destruct (jget _ (js "verdict")) as [vd | ] eqn:Hv; [ | left; reflexivity]);
    (destruct (jget _ (js "reasoning")) as [rs | ] eqn:Hr; [ | left; reflexivity]);
    (destruct (truthy_val vd) eqn:E1; [ | left; reflexivity]);
    (destruct (truthy_val rs) eqn:E2; [ | left; reflexivity]);
    cbn [andb];
    (match goal with |- context [insert_result w ?E ?R] =>
       destruct (insert_result w E R) eqn:Hi end;
     [ right; eexists text, _, vd, rs; rewrite Ht; repeat split; eauto
     | left; reflexivity
     | left; unfold catch_unit; destruct (is_quota_error _); reflexivity ]).
Qed.

(** C3 (amended): the row a unit inserts holds exactly the verdict and
    the reasoning of the payload parsed from the Gemini response, both
    truthy; conversely every payload with truthy [verdict] and
    [reasoning] is stored, whatever the verdict is ("maybe" included),
    when the insert succeeds; and a run only appends rows with truthy
    verdict and reasoning. *)
Theorem inserted_row_is_payload :
  (forall sub q ans j st,
     evaluations (store (run_unit w sub q ans j st)) = evaluations (store st)
     \/ exists text v vd rs,
          generate w (gen_calls st) (unit_call q ans j) = GenOk (Some text)
          /\ json_parse (clean_response (trim text)) = Some v
          /\ jget v (js "verdict") = Some vd /\ jget v (js "reasoning") = Some rs
          /\ truthy_val vd = true /\ truthy_val rs = true
          /\ evaluations (store (run_unit w sub q ans j st))
             = evaluations (store st)
               ++ [{| ev_submission_id := sub_id sub; ev_question_id := q_id q;
                      ev_judge_id := judge_id j; ev_verdict := vd; ev_reasoning := rs;
                      ev_created_at := now_iso w (clock st) |}])
  /\ (forall sub q ans j st text v vd rs,
        generate w (gen_calls st) (unit_call q ans j) = GenOk (Some text) ->
        trim text <> [] ->
        json_parse (clean_response (trim text)) = Some v ->
        jget v (js "verdict") = Some vd -> jget v (js "reasoning") = Some rs ->
        truthy_val vd = true -> truthy_val rs = true ->
        let row := {| ev_submission_id := sub_id sub; ev_question_id := q_id q;
                      ev_judge_id := judge_id j; ev_verdict := vd; ev_reasoning := rs;
                      ev_created_at := now_iso w (clock st) |} in
        insert_result w (evaluations (store st)) row = InsOk ->
        run_unit w sub q ans j st
        = st_complete row (st_tick (st_call (unit_call q ans j) (st_plan st))))
  /\ (forall qid d,
        exists new, evaluations (final_store (run_judges w qid d)) = evaluations d ++ new
                    /\ Forall (fun r => truthy_val (ev_verdict r) = true
                                        /\ truthy_val (ev_reasoning r) = true) new).
Proof.
  split; [exact (run_unit_row_source) | split].
  - intros sub q ans j st text v vd rs Hg Ht Hp Hv Hr E1 E2 row Hi.
    unfold run_unit. cbv zeta.
    change (gen_calls (st_plan st)) with (gen_calls st). rewrite Hg.
    cbn [option_map].
    destruct (trim text) as [ | c raw]; [congruence | ]. rewrite Hp.
    destruct v; [discriminate Hv | ..]; rewrite Hv, Hr, E1, E2; cbn [andb];
      (match goal with |- context [insert_result w ?E ?R] =>
         replace (insert_result w E R) with InsOk by (symmetry; exact Hi) end);
      reflexivity.
  - intros qid d. destruct (run_judges_store w qid d) as [new [H F]]. exists new.
    rewrite H. split; [reflexivity | exact F].
Qed.
End PayloadRows.

(** * Instances on the concrete scenarios *)

(** Witness of C1 on the spec scenario. *)
Lemma run_judges_counts_balanced_witness :
  response (run_judges fx_world_AB (Some fx_queue) fx_db_AB)
  = ResOk {| s_planned := 2; s_completed := 1; s_failed := 1; s_note := None;
             s_warnings := [W_GENERIC] |}
  /\ (2 = 1 + 1)%nat.
Proof.
  split; [vm_compute; reflexivity | ].
  exact (proj2 (run_judges_counts_balanced fx_world_AB) (Some fx_queue) fx_db_AB
           {| s_planned := 2; s_completed := 1; s_failed := 1; s_note := None;
              s_warnings := [W_GENERIC] |}
           ltac:(vm_compute; reflexivity)).
Defined.

(** C2 does not hold: on the spec scenario the call for question B times
    out, and the only warning of the run is the generic-failure one; the
    timeout message of [classifyGeminiError] never reaches it. *)
Lemma timeout_gives_generic_warning :
  response (run_judges fx_world_AB (Some fx_queue) fx_db_AB)
  = ResOk {| s_planned := 2; s_completed := 1; s_failed := 1; s_note := None;
             s_warnings := [W_GENERIC] |}
  /\ classifyGeminiError fx_timeout = js "LLM request timed out."
  /\ W_GENERIC <> js "LLM request timed out.".
Proof.
  split; [vm_compute; reflexivity | split; [vm_compute; reflexivity | ]].
  vm_compute. discriminate.
Defined.

(** Witness of the amended C2: the timed-out unit of question B, and a
    failing planning read. *)
Lemma gateway_error_two_categories_witness :
  run_unit fx_world_AB fx_sub fx_qB fx_ansB fx_active_judge (initial_state fx_db_AB)
  = st_fail (if is_quota_error fx_timeout then W_QUOTA else W_GENERIC)
            (st_call (unit_call fx_qB fx_ansB fx_active_judge)
                     (st_plan (initial_state fx_db_AB)))
  /\ response (run_judges fx_world_read_error (Some fx_queue) fx_db_AB)
     = Res500 ERR_INTERNAL (classifyGeminiError fx_timeout).
Proof.
  split.
  - apply (proj1 (gateway_error_two_categories fx_world_AB)). vm_compute. reflexivity.
  - apply (proj2 (gateway_error_two_categories fx_world_read_error));
      [discriminate | vm_compute; reflexivity].
Defined.

(** C3 does not hold: a payload with verdict ["maybe"] is inserted. *)
Lemma non_enum_verdict_inserted :
  map ev_verdict (evaluations (final_store
     (run_judges (fx_world (fx_reply (jsq "{'verdict':'maybe','reasoning':'x'}")))
                 (Some fx_queue) fx_db_A)))
  = [JStr (js "maybe")].
Proof. vm_compute. reflexivity. Defined.

(** Witness of C4: a queue without judge assignments. *)
Lemma run_judges_empty_short_circuit_witness :
  run_judges fx_world_AB (Some fx_queue) (fx_db [fx_active_judge] [])
  = {| response := ResOk {| s_planned := 0; s_completed := 0; s_failed := 0;
                            s_note := Some NOTE_NOTHING; s_warnings := [] |};
       final_store := fx_db [fx_active_judge] []; llm_calls := [] |}.
Proof.
  apply (run_judges_empty_short_circuit fx_world_AB fx_queue (fx_db [fx_active_judge] [])
           [fx_sub] [fx_qA; fx_qB] [fx_ansA; fx_ansB] []).
  - discriminate.
  - vm_compute. reflexivity.
  - right. right. reflexivity.
Defined.

(** C5 does not hold as stated: the inner JSON is valid with truthy
    fields, yet the unit fails because the reasoning's backticks are
    stripped before parsing. *)
Lemma fenced_valid_json_fails :
  json_parse (trim fx_inner_ticks)
  = Some (JObj [(js "verdict", JStr (js "pass")); (js "reasoning", JStr ticks3)])
  /\ response (run_judges (fx_world (fx_reply (fx_fenced fx_inner_ticks)))
                          (Some fx_queue) fx_db_A)
     = ResOk {| s_planned := 1; s_completed := 0; s_failed := 1; s_note := None;
                s_warnings := [W_INVALID] |}
  /\ evaluations (final_store (run_judges (fx_world (fx_reply (fx_fenced fx_inner_ticks)))
                                          (Some fx_queue) fx_db_A)) = [].
Proof. split; [ | split]; vm_compute; reflexivity. Defined.

(** Witness of the amended C5. *)
Lemma fenced_response_completes_witness :
  completed (run_unit (fx_world (fx_reply (fx_fenced fx_inner_ok)))
                      fx_sub fx_qA fx_ansA fx_active_judge (initial_state fx_db_A)) = 1%nat.
Proof.
  exact (proj1 (proj2 (fenced_response_completes
           (fx_world (fx_reply (fx_fenced fx_inner_ok)))
           fx_sub fx_qA fx_ansA fx_active_judge (initial_state fx_db_A)
           fx_inner_ok
           (JObj [(js "verdict", JStr (js "pass")); (js "reasoning", JStr (js "ok"))])
           (JStr (js "pass")) (JStr (js "ok"))
           ltac:(vm_compute; reflexivity) ltac:(vm_compute; reflexivity)
           ltac:(vm_compute; reflexivity) ltac:(vm_compute; reflexivity)
           ltac:(vm_compute; reflexivity) ltac:(vm_compute; reflexivity)
           ltac:(vm_compute; reflexivity) ltac:(vm_compute; reflexivity)))).
Defined.

(** Witness of C6: question B's judge is inactive; a judge without an
    [active] value is run. *)
Lemma inactive_or_missing_judge_contributes_nothing_witness :
  run_plan fx_world_AB [fx_sub] [fx_qA; fx_qB] [fx_ansA; fx_ansB]
    ([join_judge fx_db_AB (fx_qj "a1" "qA" "j1")]
       ++ {| as_id := js "a2"; as_question_id := js "qB"; as_judge_id := js "j2";
             judges := Some (fx_judge "j2" (Some false)) |} :: [])
    (initial_state fx_db_AB)
  = run_plan fx_world_AB [fx_sub] [fx_qA; fx_qB] [fx_ansA; fx_ansB]
      ([join_judge fx_db_AB (fx_qj "a1" "qA" "j1")] ++ [])
      (initial_state fx_db_AB)
  /\ run_assigned fx_world_AB fx_sub fx_qA fx_ansA
       [{| as_id := js "a3"; as_question_id := js "qA"; as_judge_id := js "j3";
           judges := Some (fx_judge "j3" None) |}] (initial_state fx_db_AB)
     = run_unit fx_world_AB fx_sub fx_qA fx_ansA (fx_judge "j3" None)
         (initial_state fx_db_AB).
Proof.
  split.
  - apply (proj1 (inactive_or_missing_judge_contributes_nothing fx_world_AB)).
    right. exists (fx_judge "j2" (Some false)). split; reflexivity.
  - apply (proj2 (inactive_or_missing_judge_contributes_nothing fx_world_AB));
      reflexivity.
Defined.

(** Witness of C7: a payload without [reasoning]. *)
Lemma invalid_payload_fails_witness :
  failed (run_unit (fx_world (fx_reply (jsq "{'verdict':'pass'}")))
                   fx_sub fx_qA fx_ansA fx_active_judge (initial_state fx_db_A)) = 1%nat.
Proof.
  exact (proj1 (proj2 (invalid_payload_fails
           (fx_world (fx_reply (jsq "{'verdict':'pass'}")))
           fx_sub fx_qA fx_ansA fx_active_judge (initial_state fx_db_A)
           (jsq "{'verdict':'pass'}") (JObj [(js "verdict", JStr (js "pass"))])
           ltac:(vm_compute; reflexivity) ltac:(vm_compute; discriminate)
           ltac:(vm_compute; reflexivity) ltac:(vm_compute; reflexivity)))).
Defined.


(** Witness of C10: question A assigned twice to judge j1, once to j2 and
    once to the inactive j3. *)
Lemma duplicate_assignments_run_separately_witness :
  planned (run_question fx_world_AB [fx_ansA; fx_ansB]
             (map (join_judge fx_db_dup_mixed) (question_judges fx_db_dup_mixed))
             fx_sub (initial_state fx_db_dup_mixed) fx_qA) = 3%nat.
Proof.
  pose proof (proj1 (proj2 (duplicate_assignments_run_separately fx_world_AB
           [fx_ansA; fx_ansB]
           (map (join_judge fx_db_dup_mixed) (question_judges fx_db_dup_mixed))
           fx_sub fx_qA fx_ansA (initial_state fx_db_dup_mixed)
           ltac:(vm_compute; reflexivity)))) as H.
  rewrite H. vm_compute. reflexivity.
Defined.

(** Witness of C3: a payload whose verdict is "maybe" is stored. *)
Lemma inserted_row_is_payload_witness :
  run_unit (fx_world (fx_reply (jsq "{'verdict':'maybe','reasoning':'x'}")))
           fx_sub fx_qA fx_ansA fx_active_judge (initial_state fx_db_A)
  = st_complete
      {| ev_submission_id := js "s1"; ev_question_id := js "qA"; ev_judge_id := js "j1";
         ev_verdict := JStr (js "maybe"); ev_reasoning := JStr (js "x");
         ev_created_at := js "2025-01-01T00:00:00.000Z" |}
      (st_tick (st_call (unit_call fx_qA fx_ansA fx_active_judge)
                        (st_plan (initial_state fx_db_A)))).
Proof.
  apply (proj1 (proj2 (inserted_row_is_payload
           (fx_world (fx_reply (jsq "{'verdict':'maybe','reasoning':'x'}")))))
           fx_sub fx_qA fx_ansA fx_active_judge (initial_state fx_db_A)
           (jsq "{'verdict':'maybe','reasoning':'x'}")
           (JObj [(js "verdict", JStr (js "maybe")); (js "reasoning", JStr (js "x"))])
           (JStr (js "maybe")) (JStr (js "x")));
    vm_compute; first [reflexivity | discriminate].
Defined.

(** * Further properties of the handler and of its caller *)

(** ** The warning set *)

Lemma jsstr_eqb_refl (a : jsstr) : jsstr_eqb a a = true.
Proof.
  induction a as [ | c a IH]; simpl; [reflexivity | ].
  now rewrite Z.eqb_refl.
Qed.

Lemma set_add_NoDup (m : jsstr) (ws : list jsstr) : NoDup ws -> NoDup (set_add m ws).
Proof.
  intros H. unfold set_add. destruct (existsb (jsstr_eqb m) ws) eqn:E; [exact H | ].
  apply NoDup_app; [exact H | constructor; [intros [] | constructor] | ].
  intros x Hx [Hxm | []]. subst x.
  assert (existsb (jsstr_eqb m) ws = true) as E'
    by (apply existsb_exists; exists m; split; [exact Hx | apply jsstr_eqb_refl]).
  congruence.
Qed.

Lemma set_add_cases (m x : jsstr) (ws : list jsstr) :
  In x (set_add m ws) -> x = m \/ In x ws.
Proof.
  unfold set_add. destruct (existsb _ _); [auto | ].
  intros H. apply in_app_or in H as [H | [H | []]]; auto.
Qed.

Lemma set_add_not_nil (m : jsstr) (ws : list jsstr) : set_add m ws <> [].
Proof.
  intros H. pose proof (set_add_In m ws) as Hin. rewrite H in Hin. destruct Hin.
Qed.

Ltac in_messages := unfold unit_messages; cbn [In]; tauto.

Section MoreFacts.
Context (w : World).

Lemma catch_unit_known (e : Thrown) (st : RunState) :
  exists m, In m unit_messages /\ catch_unit e st = st_fail m st.
Proof.
  unfold catch_unit. destruct (is_quota_error e); eexists;
    (split; [ | reflexivity]); in_messages.
Qed.

Ltac known_fail := left; eexists; split; [ | reflexivity]; in_messages.

(** The three ways a unit ends, with the warning it adds and the row it
    inserts. *)
Lemma run_unit_cases_full sub q ans j st :
  let st2 := st_call (unit_call q ans j) (st_plan st) in
  (exists m, In m unit_messages /\ run_unit w sub q ans j st = st_fail m st2)
  \/ (exists m, In m unit_messages /\ run_unit w sub q ans j st = st_fail m (st_tick st2))
  \/ (exists vd rs,
        run_unit w sub q ans j st =
        st_complete {| ev_submission_id := sub_id sub; ev_question_id := q_id q;
                       ev_judge_id := judge_id j; ev_verdict := vd; ev_reasoning := rs;
                       ev_created_at := now_iso w (clock st) |} (st_tick st2)).
Proof.
  intros st2. unfold run_unit. fold st2.
  destruct (generate w _ _) as [e | text].
  { left. destruct (catch_unit_known e st2) as [m [Hm H]]. exists m. now rewrite H. }
  destruct (option_map trim text) as [[ | c raw] | ]; try known_fail.
  destruct (json_parse _) as [v | ]; [ | known_fail].
  destruct v;
    try (left; destruct (catch_unit_known destructure_null_error st2) as [m [Hm H]];
         exists m; rewrite H; auto; fail);
    (destruct (jget _ (js "verdict")) as [vd | ]; [ | known_fail]);
    (destruct (jget _ (js "reasoning")) as [rs | ]; [ | known_fail]);
    (destruct (truthy_val vd && truthy_val rs); [ | known_fail]);
    (match goal with |- context [insert_result w ?E ?R] => destruct (insert_result w E R) end;
    [ right; right; exists vd, rs; reflexivity
    | right; left; eexists; split; [ | reflexivity]; in_messages
    | right; left; destruct (catch_unit_known e (st_tick st2)) as [m [Hm H]];
      exists m; now rewrite H ]).
Qed.

Ltac unit_cases sub q a j st :=
  destruct (run_unit_cases_full sub q a j st) as [[m [Hm H]] | [[m [Hm H]] | [vd [rs H]]]];
  rewrite H; cbn [run_warnings failed completed planned store gen_calls clock
                  st_fail st_call st_plan st_tick st_complete with_db evaluations].

Lemma run_plan_warnings subs qs ans qj st :
  let st' := run_plan w subs qs ans qj st in
  (NoDup (run_warnings st) -> NoDup (run_warnings st'))
  /\ (incl (run_warnings st) unit_messages -> incl (run_warnings st') unit_messages)
  /\ ((run_warnings st = [] <-> failed st = 0%nat)
      -> (run_warnings st' = [] <-> failed st' = 0%nat)).
Proof.
  apply (run_plan_R w (fun a b =>
           (NoDup (run_warnings a) -> NoDup (run_warnings b))
           /\ (incl (run_warnings a) unit_messages -> incl (run_warnings b) unit_messages)
           /\ ((run_warnings a = [] <-> failed a = 0%nat)
               -> (run_warnings b = [] <-> failed b = 0%nat)))).
  - intros; tauto.
  - intros a b c [H1 [H2 H3]] [G1 [G2 G3]]. tauto.
  - intros sub q a j st1. unit_cases sub q a j st1;
      try (split; [ | split]; tauto).
    + split; [apply set_add_NoDup | split].
      * intros Hi x Hx. apply set_add_cases in Hx as [-> | Hx]; auto.
      * intros _. split; intros Hc; [exfalso; exact (set_add_not_nil _ _ Hc) | discriminate].
    + split; [apply set_add_NoDup | split].
      * intros Hi x Hx. apply set_add_cases in Hx as [-> | Hx]; auto.
      * intros _. split; intros Hc; [exfalso; exact (set_add_not_nil _ _ Hc) | discriminate].
Qed.

(** Every Gemini call is logged once per planned unit. *)
Lemma run_plan_calls subs qs ans qj st :
  let st' := run_plan w subs qs ans qj st in
  (List.length (gen_calls st') + planned st = List.length (gen_calls st) + planned st')%nat.
Proof.
  apply (run_plan_R w (fun a b =>
           (List.length (gen_calls b) + planned a
            = List.length (gen_calls a) + planned b)%nat)).
  - intros; lia.
  - intros; lia.
  - intros sub q a j st1. unit_cases sub q a j st1; rewrite length_app; simpl; lia.
Qed.

(** Every completed unit appends one row. *)
Lemma run_plan_rows subs qs ans qj st :
  let st' := run_plan w subs qs ans qj st in
  (List.length (evaluations (store st')) + completed st
   = List.length (evaluations (store st)) + completed st')%nat.
Proof.
  apply (run_plan_R w (fun a b =>
           (List.length (evaluations (store b)) + completed a
            = List.length (evaluations (store a)) + completed b)%nat)).
  - intros; lia.
  - intros; lia.
  - intros sub q a j st1. unit_cases sub q a j st1; try lia.
    rewrite length_app. simpl. lia.
Qed.

(** The shape of a summary the handler returns. *)
Lemma run_judges_ok_cases qid d s :
  response (run_judges w qid d) = ResOk s ->
  (s = {| s_planned := 0; s_completed := 0; s_failed := 0;
          s_note := Some NOTE_NOTHING; s_warnings := [] |}
   /\ final_store (run_judges w qid d) = d /\ llm_calls (run_judges w qid d) = [])
  \/ exists q subs qs ans qj st,
       qid = Some q /\ load_plan w q d = inr (subs, qs, ans, qj)
       /\ st = run_plan w subs qs ans qj (initial_state d)
       /\ s = {| s_planned := planned st; s_completed := completed st;
                 s_failed := failed st; s_note := None; s_warnings := run_warnings st |}
       /\ final_store (run_judges w qid d) = store st
       /\ llm_calls (run_judges w qid d) = gen_calls st.
Proof.
  unfold run_judges. destruct qid as [[ | c q] | ]; try discriminate.
  destruct (load_plan w (c :: q) d) as [e | [[[subs qs] ans] qj]] eqn:Hl; [discriminate | ].
  destruct (_ || _); simpl; intros H; injection H as <-; [left; auto | right].
  exists (c :: q), subs, qs, ans, qj, (run_plan w subs qs ans qj (initial_state d)).
  repeat split; auto.
Qed.

Lemma run_judges_not_ok qid d :
  (forall s, response (run_judges w qid d) <> ResOk s) ->
  final_store (run_judges w qid d) = d /\ llm_calls (run_judges w qid d) = [].
Proof.
  unfold run_judges. destruct qid as [[ | c q] | ]; simpl; auto.
  destruct (load_plan w (c :: q) d) as [e | [[[subs qs] ans] qj]]; simpl; auto.
  destruct (_ || _); simpl; intros H; exfalso; eapply H; reflexivity.
Qed.

Lemma summary_warnings_props qid d s :
  response (run_judges w qid d) = ResOk s ->
  NoDup (s_warnings s) /\ incl (s_warnings s) unit_messages
  /\ (s_warnings s = [] <-> s_failed s = 0%nat).
Proof.
  intros H. destruct (run_judges_ok_cases qid d s H)
    as [[-> _] | [q [subs [qs [ans [qj [st [_ [_ [Hst [-> _]]]]]]]]]]].
  - simpl. split; [constructor | split; [intros x [] | tauto]].
  - simpl. destruct (run_plan_warnings subs qs ans qj (initial_state d)) as [H1 [H2 H3]].
    rewrite <- Hst in H1, H2, H3. simpl in H1, H2, H3.
    split; [apply H1; constructor | split; [apply H2; intros x [] | apply H3; tauto]].
Qed.
End MoreFacts.

(** ** Planned units do not depend on the LLM, the insert or the clock *)

Lemma run_unit_planned w sub q a j st :
  planned (run_unit w sub q a j st) = S (planned st).
Proof. exact (proj1 (run_unit_counters w sub q a j st)). Qed.

Lemma fold_left_planned {A} (f1 f2 : RunState -> A -> RunState) (l : list A) :
  (forall st1 st2 x, planned st1 = planned st2 -> planned (f1 st1 x) = planned (f2 st2 x)) ->
  forall st1 st2, planned st1 = planned st2 ->
  planned (fold_left f1 l st1) = planned (fold_left f2 l st2).
Proof.
  intros Hf. induction l as [ | x l IH]; intros st1 st2 H; simpl; auto.
Qed.

Lemma run_assigned_planned w1 w2 sub q a l :
  forall st1 st2, planned st1 = planned st2 ->
  planned (run_assigned w1 sub q a l st1) = planned (run_assigned w2 sub q a l st2).
Proof.
  induction l as [ | x l IH]; intros st1 st2 H; simpl; auto.
  destruct (judge_skipped x); apply IH; auto.
  rewrite !run_unit_planned. congruence.
Qed.

Lemma run_plan_planned w1 w2 subs qs ans qj st1 st2 :
  planned st1 = planned st2 ->
  planned (run_plan w1 subs qs ans qj st1) = planned (run_plan w2 subs qs ans qj st2).
Proof.
  unfold run_plan. apply fold_left_planned. intros s1 s2 sub H.
  unfold run_submission. apply fold_left_planned; auto. intros t1 t2 q G.
  unfold run_question. destruct (find_answer ans sub q); auto.
  apply run_assigned_planned; auto.
Qed.

Lemma load_plan_read w1 w2 q d :
  (forall t, read_error w1 t = read_error w2 t) -> load_plan w1 q d = load_plan w2 q d.
Proof. intros H. unfold load_plan, select. rewrite !H. reflexivity. Qed.

(** ** Lifting a property of the planned units only *)


Section PlanLift.
Context (w : World) (subs : list Submission) (qs : list Question)
        (ans : list Answer) (qj : list Assignment).
Variable R : RunState -> RunState -> Prop.
Hypothesis R_refl : forall st, R st st.
Hypothesis R_trans : forall a b c, R a b -> R b c -> R a c.
Hypothesis R_planned : forall sub q a asg j st,
  In sub subs -> In q qs -> find_answer ans sub q = Some a ->
  In asg qj -> as_question_id asg = q_id q ->
  judges asg = Some j -> active j <> Some false ->
  R st (run_unit w sub q a j st).



End PlanLift.

(** What a successful planning phase loads. *)
Lemma load_plan_inr w q d subs qs ans qj :
  load_plan w q d = inr (subs, qs, ans, qj) ->
  subs = filter (fun s => jsstr_eqb (sub_queue_id s) q) (submissions d)
  /\ qs = filter (fun x => jsstr_eqb (q_queue_id x) q) (questions d)
  /\ incl ans (answers d)
  /\ qj = map (join_judge d) (filter (fun r => jsstr_eqb (qj_queue_id r) q)
                                     (question_judges d)).
Proof.
  intros H. unfold load_plan, select, bind, ret in H.
  destruct (read_error w TSubmissions); [discriminate | ].
  destruct (read_error w TQuestions); [discriminate | ].
  cbv beta iota zeta in H.
  destruct (map sub_id (filter (fun s => jsstr_eqb (sub_queue_id s) q) (submissions d))).
  - destruct (read_error w TQuestionJudges); [discriminate | ].
    injection H as <- <- <- <-. repeat split. intros x [].
  - destruct (read_error w TAnswers); [discriminate | ].
    destruct (read_error w TQuestionJudges); [discriminate | ].
    injection H as <- <- <- <-. repeat split.
    intros x Hx. apply filter_In in Hx. tauto.
Qed.

(** ** The Gemini client down *)

Section Outage.
Context (w : World).
Hypothesis gen_down : forall calls c, exists e, generate w calls c = GenThrow e.

Lemma run_plan_outage subs qs ans qj st :
  let st' := run_plan w subs qs ans qj st in
  completed st' = completed st /\ evaluations (store st') = evaluations (store st)
  /\ (incl (run_warnings st) [W_QUOTA; W_GENERIC]
      -> incl (run_warnings st') [W_QUOTA; W_GENERIC]).
Proof.
  apply (run_plan_R w (fun a b =>
           completed b = completed a /\ evaluations (store b) = evaluations (store a)
           /\ (incl (run_warnings a) [W_QUOTA; W_GENERIC]
               -> incl (run_warnings b) [W_QUOTA; W_GENERIC]))).
  - intros; tauto.
  - intros a b c [H1 [H2 H3]] [G1 [G2 G3]]. repeat split; [congruence | congruence | tauto].
  - intros sub q a j st1. unfold run_unit.
    destruct (gen_down (gen_calls (st_plan st1)) (unit_call q a j)) as [e He].
    rewrite He. unfold catch_unit.
    destruct (is_quota_error e); cbn; (split; [reflexivity | split; [reflexivity | ]]);
      intros Hi x Hx; apply set_add_cases in Hx as [-> | Hx]; auto; cbn; tauto.
Qed.
End Outage.

(** ** The hints *)

Lemma classifyGeminiError_cons (e : Thrown) :
  exists c t, classifyGeminiError e = c :: t.
Proof.
  unfold classifyGeminiError.
  destruct (_ || _); [do 2 eexists; reflexivity | ].
  destruct (_ || _); [do 2 eexists; reflexivity | ].
  destruct (_ || _); do 2 eexists; reflexivity.
Qed.

(** ** The page's request *)

Lemma click_step_post queueId n1 n2 n3 q :
  click_step queueId n1 n2 n3 = Post q -> q <> [] /\ queueId = Some q.
Proof.
  unfold click_step. destruct queueId as [[ | c q'] | ]; try discriminate.
  destruct (n1 =? 0)%nat; [discriminate | ].
  destruct (n2 =? 0)%nat; [discriminate | ].
  destruct (n3 =? 0)%nat; [discriminate | ].
  intros H. injection H as <-. split; [discriminate | reflexivity].
Qed.

(** ** Extra properties *)

Section Extras.
Context (w : World).

(** X1: the warnings of a summary are distinct, each is one of the six
    per-unit messages, so there are at most six of them. *)
Theorem summary_warnings_distinct qid d s :
  response (run_judges w qid d) = ResOk s ->
  NoDup (s_warnings s) /\ incl (s_warnings s) unit_messages
  /\ (List.length (s_warnings s) <= 6)%nat.
Proof.
  intros H. destruct (summary_warnings_props w qid d s H) as [H1 [H2 _]].
  split; [exact H1 | split; [exact H2 | ]].
  exact (NoDup_incl_length H1 H2).
Qed.

(** X2: a summary has no warning exactly when no unit failed. *)
Theorem summary_warnings_iff_failures qid d s :
  response (run_judges w qid d) = ResOk s ->
  (s_warnings s = [] <-> s_failed s = 0%nat).
Proof. intros H. exact (proj2 (proj2 (summary_warnings_props w qid d s H))). Qed.

(** X3: a request makes exactly as many Gemini calls as the units it
    reports planned, and none when it answers an error. *)
Theorem llm_calls_match_planned qid d :
  List.length (llm_calls (run_judges w qid d)) =
  match response (run_judges w qid d) with ResOk s => s_planned s | _ => 0%nat end.
Proof.
  destruct (response (run_judges w qid d)) as [e | e h | s] eqn:Hr;
    try (rewrite (proj2 (run_judges_not_ok w qid d ltac:(intros s; rewrite Hr; discriminate)));
         reflexivity).
  destruct (run_judges_ok_cases w qid d s Hr)
    as [[-> [_ ->]] | [q [subs [qs [ans [qj [st [_ [_ [Hst [-> [_ ->]]]]]]]]]]]];
    [reflexivity | ].
  pose proof (run_plan_calls w subs qs ans qj (initial_state d)) as Hc.
  rewrite <- Hst in Hc. simpl in *. lia.
Qed.

(** The table's length grows by the number of completed units. *)
Lemma evaluations_length_completed qid d :
  List.length (evaluations (final_store (run_judges w qid d))) =
  (List.length (evaluations d)
   + match response (run_judges w qid d) with ResOk s => s_completed s | _ => 0 end)%nat.
Proof.
  destruct (response (run_judges w qid d)) as [e | e h | s] eqn:Hr;
    try (rewrite (proj1 (run_judges_not_ok w qid d ltac:(intros s; rewrite Hr; discriminate)));
         lia).
  destruct (run_judges_ok_cases w qid d s Hr)
    as [[-> [-> _]] | [q [subs [qs [ans [qj [st [_ [_ [Hst [-> [-> _]]]]]]]]]]]];
    [simpl; lia | ].
  pose proof (run_plan_rows w subs qs ans qj (initial_state d)) as Hc.
  rewrite <- Hst in Hc. simpl in *. lia.
Qed.

(** X4: after a request the evaluations table is the old table, every
    existing row kept in place, followed by exactly as many new rows as
    the summary counts completed; on a 400 or 500 answer nothing is
    appended, so the table is unchanged. *)
Theorem evaluations_grow_by_completed qid d :
  exists new,
    evaluations (final_store (run_judges w qid d)) = evaluations d ++ new
    /\ List.length new =
       match response (run_judges w qid d) with ResOk s => s_completed s | _ => 0%nat end.
Proof.
  destruct (run_judges_store w qid d) as [new [Hs _]].
  exists new. split.
  - rewrite Hs. reflexivity.
  - pose proof (evaluations_length_completed qid d) as Hl.
    rewrite Hs in Hl. simpl in Hl. rewrite length_app in Hl. lia.
Qed.

(** X5: a request answered with 400 or 500 leaves the store unchanged
    and makes no Gemini call. *)
Theorem error_response_no_effect qid d :
  match response (run_judges w qid d) with
  | ResOk _ => True
  | _ => final_store (run_judges w qid d) = d /\ llm_calls (run_judges w qid d) = []
  end.
Proof.
  destruct (response (run_judges w qid d)) eqn:Hr; auto;
    apply run_judges_not_ok; intros s; rewrite Hr; discriminate.
Qed.


(** X10: when every Gemini call fails, no unit completes, every planned
    unit fails, no row is written, and the only warnings are the quota
    and the generic-failure ones. *)
Theorem llm_outage_completes_nothing qid d s :
  (forall calls c, exists e, generate w calls c = GenThrow e) ->
  response (run_judges w qid d) = ResOk s ->
  s_completed s = 0%nat /\ s_failed s = s_planned s
  /\ evaluations (final_store (run_judges w qid d)) = evaluations d
  /\ incl (s_warnings s) [W_QUOTA; W_GENERIC].
Proof.
  intros Hg Hr.
  destruct (run_judges_ok_cases w qid d s Hr)
    as [[-> [-> _]] | [q [subs [qs [ans [qj [st [_ [_ [Hst [-> [-> _]]]]]]]]]]]].
  - simpl. repeat split. intros x [].
  - destruct (run_plan_outage w Hg subs qs ans qj (initial_state d)) as [H1 [H2 H3]].
    pose proof (run_plan_counts w subs qs ans qj (initial_state d)) as Hc.
    unfold counts_step in Hc. rewrite <- Hst in H1, H2, H3, Hc. simpl in *.
    repeat split; [exact H1 | lia | exact H2 | apply H3; intros x []].
Qed.

(** X11: the queue page only posts a non-empty [queueId], so it never
    receives the missing-queueId error. *)
Theorem page_request_never_missing_queue queueId n1 n2 n3 q d e :
  click_step queueId n1 n2 n3 = Post q ->
  response (run_judges w (Some q) d) <> Res400 e.
Proof.
  intros Hc. apply click_step_post in Hc as [Hq _].
  unfold run_judges. destruct q as [ | c q]; [congruence | ].
  destruct (load_plan w (c :: q) d) as [e' | [[[subs qs] ans] qj]]; [discriminate | ].
  destruct (_ || _); discriminate.
Qed.

(** X12: after a run that returns a summary, the page shows a success
    status exactly when no unit failed. *)
Theorem page_success_iff_no_failure queueId n1 n2 n3 q d s :
  click_step queueId n1 n2 n3 = Post q ->
  response (run_judges w (Some q) d) = ResOk s ->
  exists m, handle_run_judges w d queueId n1 n2 n3 =
            Some {| kind := if (s_failed s =? 0)%nat then KSuccess else KError;
                    message := m |}.
Proof.
  intros Hc Hr. pose proof (summary_warnings_props w (Some q) d s Hr) as [_ [_ Hiff]].
  unfold handle_run_judges. rewrite Hc, Hr.
  eexists. unfold page_status. f_equal. f_equal.
  destruct (s_warnings s) as [ | x l];
    destruct (Nat.eqb_spec (s_failed s) 0) as [E | E]; auto.
  - exfalso. apply E, Hiff. reflexivity.
  - apply Hiff in E. discriminate.
Qed.

(** X13: when a planning read fails, the page shows the backend's
    internal-error message followed by the hint for that read error. *)
Theorem page_shows_planning_error queueId n1 n2 n3 q d e :
  click_step queueId n1 n2 n3 = Post q ->
  load_plan w q d = inl e ->
  handle_run_judges w d queueId n1 n2 n3 =
    Some {| kind := KError; message := ERR_INTERNAL ++ js " " ++ classifyGeminiError e |}.
Proof.
  intros Hc Hl. pose proof Hc as [Hq _]%click_step_post.
  unfold handle_run_judges. rewrite Hc. unfold run_judges.
  destruct q as [ | c q]; [congruence | ]. rewrite Hl.
  destruct (classifyGeminiError_cons e) as [x [t Ht]]. rewrite Ht. reflexivity.
Qed.
End Extras.

(** X6: the number of planned units depends only on the store and on the
    planning reads: neither the Gemini answers, nor the inserts, nor the
    clock change it. *)
Theorem planned_independent_of_llm (w1 w2 : World) qid d s1 s2 :
  (forall t, read_error w1 t = read_error w2 t) ->
  response (run_judges w1 qid d) = ResOk s1 ->
  response (run_judges w2 qid d) = ResOk s2 ->
  s_planned s1 = s_planned s2.
Proof.
  intros Hr H1 H2. unfold run_judges in H1, H2.
  destruct qid as [[ | c q] | ]; try discriminate.
  rewrite (load_plan_read w1 w2 (c :: q) d Hr) in H1.
  destruct (load_plan w2 (c :: q) d) as [e | [[[subs qs] ans] qj]]; [discriminate | ].
  revert H1 H2.
  destruct ((List.length subs =? 0)%nat || (List.length qs =? 0)%nat
            || (List.length qj =? 0)%nat);
    intros H1 H2; injection H1 as <-; injection H2 as <-; [reflexivity | ].
  apply run_plan_planned. reflexivity.
Qed.

(** X8: when the queue has no submission, [answers] is not read: a
    failure of that read cannot change the outcome of the request. *)
Theorem answers_read_skipped_without_submissions (w1 w2 : World) (q : jsstr) (d : DB) :
  (forall t, t <> TAnswers -> read_error w1 t = read_error w2 t) ->
  filter (fun s => jsstr_eqb (sub_queue_id s) q) (submissions d) = [] ->
  run_judges w1 (Some q) d = run_judges w2 (Some q) d.
Proof.
  intros Hr Hs.
  assert (Hl : load_plan w1 q d = load_plan w2 q d).
  { unfold load_plan, select, bind, ret.
    rewrite (Hr TSubmissions), (Hr TQuestions), (Hr TQuestionJudges) by discriminate.
    rewrite Hs. destruct (read_error w2 TSubmissions); [reflexivity | ].
    destruct (read_error w2 TQuestions); reflexivity. }
  unfold run_judges. destruct q as [ | c q]; [reflexivity | ]. rewrite Hl.
  destruct (load_plan w2 (c :: q) d) as [e | [[[subs qs] ans] qj]] eqn:E; [reflexivity | ].
  apply load_plan_inr in E as [-> _]. rewrite Hs. reflexivity.
Qed.

(** X9: an error the final hint reports as a quota or rate-limit error is
    also counted as a quota error by the per-unit [catch]. *)
Theorem quota_hint_implies_unit_quota (e : Thrown) :
  classifyGeminiError e = js "LLM quota or rate limit exceeded." ->
  is_quota_error e = true.
Proof.
  unfold classifyGeminiError, is_quota_error. cbv zeta.
  destruct (includes (err_msg e) (js "quota")), (includes (err_msg e) (js "rate limit"));
    simpl; rewrite ?orb_true_r; auto;
    repeat match goal with |- context [if ?b then _ else _] => destruct b end;
    intros H; vm_compute in H; discriminate.
Qed.

(** ** Instances of the extra properties *)

Lemma summary_warnings_distinct_witness :
  NoDup (s_warnings fx_summary_AB) /\ incl (s_warnings fx_summary_AB) unit_messages
  /\ (List.length (s_warnings fx_summary_AB) <= 6)%nat.
Proof.
  apply (summary_warnings_distinct fx_world_AB (Some fx_queue) fx_db_AB).
  vm_compute. reflexivity.
Defined.

Lemma summary_warnings_iff_failures_witness :
  s_warnings fx_summary_AB = [] <-> s_failed fx_summary_AB = 0%nat.
Proof.
  apply (summary_warnings_iff_failures fx_world_AB (Some fx_queue) fx_db_AB).
  vm_compute. reflexivity.
Defined.

Lemma planned_independent_of_llm_witness :
  s_planned fx_summary_AB = s_planned fx_summary_down.
Proof.
  apply (planned_independent_of_llm fx_world_AB fx_world_down (Some fx_queue) fx_db_AB).
  - intros t. reflexivity.
  - vm_compute. reflexivity.
  - vm_compute. reflexivity.
Defined.


Lemma answers_read_skipped_without_submissions_witness :
  run_judges fx_world_answers_error (Some (js "queue2")) fx_db_AB
  = run_judges fx_world_AB (Some (js "queue2")) fx_db_AB.
Proof.
  apply answers_read_skipped_without_submissions.
  - intros t Ht. destruct t; [reflexivity | reflexivity | congruence | reflexivity].
  - vm_compute. reflexivity.
Defined.

Lemma quota_hint_implies_unit_quota_witness : is_quota_error fx_quota_error = true.
Proof.
  apply quota_hint_implies_unit_quota. vm_compute. reflexivity.
Defined.

Lemma llm_outage_completes_nothing_witness :
  s_completed fx_summary_down = 0%nat
  /\ s_failed fx_summary_down = s_planned fx_summary_down
  /\ evaluations (final_store (run_judges fx_world_down (Some fx_queue) fx_db_AB))
     = evaluations fx_db_AB
  /\ incl (s_warnings fx_summary_down) [W_QUOTA; W_GENERIC].
Proof.
  apply (llm_outage_completes_nothing fx_world_down (Some fx_queue) fx_db_AB fx_summary_down).
  - intros calls c. exists fx_timeout. reflexivity.
  - vm_compute. reflexivity.
Defined.

Lemma page_request_never_missing_queue_witness :
  response (run_judges fx_world_AB (Some fx_queue) fx_db_AB) <> Res400 ERR_MISSING_QUEUE.
Proof.
  apply (page_request_never_missing_queue fx_world_AB (Some fx_queue) 2 1 2).
  reflexivity.
Defined.

Lemma page_success_iff_no_failure_witness :
  exists m, handle_run_judges fx_world_AB fx_db_AB (Some fx_queue) 2 1 2 =
            Some {| kind := if (s_failed fx_summary_AB =? 0)%nat then KSuccess else KError;
                    message := m |}.
Proof.
  apply (page_success_iff_no_failure fx_world_AB (Some fx_queue) 2 1 2 fx_queue fx_db_AB).
  - reflexivity.
  - vm_compute. reflexivity.
Defined.

Lemma page_shows_planning_error_witness :
  handle_run_judges fx_world_read_error fx_db_AB (Some fx_queue) 2 1 2 =
    Some {| kind := KError;
            message := ERR_INTERNAL ++ js " " ++ classifyGeminiError fx_timeout |}.
Proof.
  apply (page_shows_planning_error fx_world_read_error (Some fx_queue) 2 1 2 fx_queue).
  - reflexivity.
  - vm_compute. reflexivity.
Defined.
